(** * Verification of scripts/scraper_1.py (class FormHandler)

    A shallow embedding of the resume bookkeeping (clean_value,
    _save_webpage's file name, _load_processed_set), of the dropdown
    helpers (_get_options_dict, _select_option) and of the nested traversal
    iterate_form, together with the properties stated about them.

    Conventions.
    - A Python [str] is a [list ascii]; a character is a code point below
      256, classified as Python classifies U+0000..U+00FF.
    - A Python [dict] is an association list in insertion order with
      distinct keys ([dict_set] overwrites in place).
    - The processed set is a [gset] of 6-tuples.
    - The browser, the clock and the output directory are an interface
      ([Driver]); every call on the browser, every write of a page and
      every logging call is recorded, in order, in the handler's [trace];
      [time.sleep] is left out. *)

From Stdlib Require Import Ascii String ZArith List Bool Lia.
From stdpp Require Import base tactics option list gmap strings.

Local Open Scope char_scope.
Local Open Scope list_scope.
Local Open Scope Z_scope.

Abbreviation str := (list ascii).

(** A string literal as a Python [str]. *)
Notation "« s »" := (list_ascii_of_string s%string) (at level 0, format "« s »").

(** * Python string primitives *)
Module PyStr.

Definition code (c : ascii) : N := N_of_ascii c.

Definition between (lo hi : N) (c : ascii) : bool :=
  ((lo <=? code c) && (code c <=? hi))%N.

(** [str.isalnum] on one code point below 256: the letters and digits of
    ASCII, and in Latin-1 the letters (ª µ º À-Ö Ø-ö ø-ÿ), the superscript
    digits (² ³ ¹) and the vulgar fractions (¼ ½ ¾). *)
Definition isalnum (c : ascii) : bool :=
  between 48 57 c || between 65 90 c || between 97 122 c
  || between 170 170 c || between 178 179 c || between 181 181 c
  || between 185 186 c || between 188 190 c
  || between 192 214 c || between 216 246 c || between 248 255 c.

(** [str.isspace] on one code point below 256: TAB..CR, FS..US, SPACE,
    NEL and NBSP. *)
Definition isspace (c : ascii) : bool :=
  between 9 13 c || between 28 32 c || between 133 133 c
  || between 160 160 c.

(** [str.lower] on one code point below 256. *)
Definition lower_char (c : ascii) : ascii :=
  if between 65 90 c || between 192 214 c || between 216 222 c
  then ascii_of_N (code c + 32) else c.

Definition lower (s : str) : str := map lower_char s.

Fixpoint lstrip (s : str) : str :=
  match s with
  | c :: r => if isspace c then lstrip r else s
  | [] => []
  end.

Definition rstrip (s : str) : str := rev (lstrip (rev s)).

(** [s.strip()] *)
Definition strip (s : str) : str := rstrip (lstrip s).

(** [a == b] on strings. *)
Definition eqb (a b : str) : bool := bool_decide (a = b).

(** [s in l] for a list of strings. *)
Definition in_list (s : str) (l : list str) : bool := existsb (eqb s) l.

(** [c in l] for a list of one-character strings. *)
Definition char_in (c : ascii) (l : list ascii) : bool :=
  existsb (Ascii.eqb c) l.

(** [s.partition(sep)] for a one-character separator: the text before the
    first separator and the text after it, or [None] without separator. *)
Fixpoint cut (sep : ascii) (s : str) : option (str * str) :=
  match s with
  | [] => None
  | c :: r =>
      if Ascii.eqb c sep then Some ([], r)
      else match cut sep r with
           | Some (a, b) => Some (c :: a, b)
           | None => None
           end
  end.

(** [s.split(sep, maxsplit)] for a one-character separator and
    [maxsplit >= 0]; the recursion is on [maxsplit]. *)
Fixpoint split_max (sep : ascii) (maxsplit : nat) (s : str) : list str :=
  match maxsplit with
  | O => [s]
  | S n =>
      match cut sep s with
      | None => [s]
      | Some (a, b) => a :: split_max sep n b
      end
  end.

(** [s.split(sep)]: a string of length n has at most n separators. *)
Definition split (sep : ascii) (s : str) : list str :=
  split_max sep (length s) s.

(** [sep.join(l)] for a one-character separator. *)
Fixpoint join (sep : ascii) (l : list str) : str :=
  match l with
  | [] => []
  | [a] => a
  | a :: r => a ++ sep :: join sep r
  end.

(** [s.rsplit(sep, 1)] for a one-character separator: [inr s] is the
    one-element list [[s]], [inl (a, b)] the two-element list [[a, b]]
    cut at the last separator. *)
Definition rsplit1 (sep : ascii) (s : str) : (str * str) + str :=
  match cut sep (rev s) with
  | Some (b, a) => inl (rev a, rev b)
  | None => inr s
  end.

(** [s.rfind(c)]: the index of the last occurrence, -1 when absent. *)
Fixpoint rfind_from (c : ascii) (s : str) (i : Z) (last : Z) : Z :=
  match s with
  | [] => last
  | d :: r => rfind_from c r (i + 1) (if Ascii.eqb d c then i else last)
  end.

Definition rfind (c : ascii) (s : str) : Z := rfind_from c s 0 (-1).

(** [s.endswith(suffix)] *)
Definition endswith (suffix s : str) : bool :=
  bool_decide (drop (length s - length suffix)%nat s = suffix).

End PyStr.

(** [PurePath.stem] of a file name: the name without its last suffix. *)
Definition stem (name : str) : str :=
  let i := PyStr.rfind "." name in
  if (0 <? i) && (i <? Z.of_nat (length name) - 1)
  then take (Z.to_nat i) name else name.

(** * Sanitization *)

(** The generator expression shared by clean_value and _save_webpage:
    [c if c.isalnum() or c in ['_', '-', '.'] else "_"]. *)
Definition keep_char (c : ascii) : bool :=
  PyStr.isalnum c || PyStr.char_in c ["_"; "-"; "."].

Definition sanitize_char (c : ascii) : ascii :=
  if keep_char c then c else "_".

Definition clean_value (val : str) : str :=
  map sanitize_char (PyStr.strip val).

(** [clean s]: every character of [s] is one that sanitization keeps. *)
Definition clean (s : str) : Prop := Forall (λ c, keep_char c = true) s.

(** * Combination keys and file names *)

(** The combination key: the 6-tuple (state, district, block, panchayat,
    year, date) of cleaned values. *)
Abbreviation Key := (str * str * str * str * str * str)%type.

(** The seven values of one leaf combination: the dict handed to
    _save_webpage, with its keys as field names. *)
Record Combo := {
  state_val : str;
  district_val : str;
  block_val : str;
  panchayat_val : str;
  year_val : str;
  date_val : str;
  option_val : str
}.

(** The key built in iterate_form from the first six values. *)
Definition key_of (row : Combo) : Key :=
  (clean_value (state_val row), clean_value (district_val row),
   clean_value (block_val row), clean_value (panchayat_val row),
   clean_value (year_val row), clean_value (date_val row)).

(** The file name built by _save_webpage: the f-string, then the
    character-wise sanitization of the whole name (no strip here). *)
Definition page_filename (row : Combo) : str :=
  let filename :=
    state_val row ++ "_" :: district_val row ++ "_" :: block_val row ++ "_" ::
    panchayat_val row ++ "_" :: year_val row ++ "_" :: date_val row ++ "_" ::
    option_val row ++ «".html.gz"» in
  map sanitize_char filename.

(** * Resume-state loader *)

(** What the loader makes of one stem: a key, or one of its two warnings. *)
Inductive Parsed :=
| ParsedKey (key : Key)
| CannotRsplit
| WrongParts (got : nat).

(** [parts = base.split("_", 5)], the length test and the unpacking. *)
Definition key_of_base (base : str) : Parsed :=
  let parts := PyStr.split_max "_" 5 base in
  match parts with
  | [state; district; block; panchayat; year; date] =>
      ParsedKey (clean_value state, clean_value district, clean_value block,
                 clean_value panchayat, clean_value year, clean_value date)
  | _ => WrongParts (length parts)
  end.

(** The body of the loop over files, from [filename = file.stem] on. *)
Definition parse_stem (filename : str) : Parsed :=
  match PyStr.rsplit1 "_" filename with
  | inr _ => CannotRsplit
  | inl (base, _) => key_of_base base
  end.

(** [directory.glob("*" + suffix)] over the names in a directory. *)
Definition glob_suffix (suffix : str) (names : list str) : list str :=
  filter (λ name, PyStr.endswith suffix name = true) names.

Definition load_file (processed : gset Key) (name : str) : gset Key :=
  match parse_stem (stem name) with
  | ParsedKey key => processed ∪ {[ key ]}
  | _ => processed
  end.

(** One directory: [None] when it does not exist, else the names in it. *)
Definition load_directory (processed : gset Key)
    (directory : option (list str)) : gset Key :=
  match directory with
  | None => processed
  | Some names =>
      let html_files :=
        glob_suffix «".html"» names ++ glob_suffix «".html.gz"» names in
      foldl load_file processed html_files
  end.

(** _load_processed_set, with [directories = [self.html_dir]]. *)
Definition _load_processed_set (html_dir : option (list str)) : gset Key :=
  foldl load_directory ∅ [html_dir].

(** A file the loader looks at: one of its two glob patterns matches. *)
Definition is_html (name : str) : Prop :=
  PyStr.endswith «".html"» name = true ∨ PyStr.endswith «".html.gz"» name = true.

(** All seven values are already in sanitized form. *)
Definition sanitized (row : Combo) : Prop :=
  clean_value (state_val row) = state_val row
  ∧ clean_value (district_val row) = district_val row
  ∧ clean_value (block_val row) = block_val row
  ∧ clean_value (panchayat_val row) = panchayat_val row
  ∧ clean_value (year_val row) = year_val row
  ∧ clean_value (date_val row) = date_val row
  ∧ clean_value (option_val row) = option_val row.

(** No value other than the date contains the delimiter. *)
Definition delimiter_free (row : Combo) : Prop :=
  ("_" ∉ state_val row) ∧ ("_" ∉ district_val row) ∧ ("_" ∉ block_val row)
  ∧ ("_" ∉ panchayat_val row) ∧ ("_" ∉ year_val row) ∧ ("_" ∉ option_val row).

(** The six key fields as they stand. *)
Definition fields_of (row : Combo) : Key :=
  (state_val row, district_val row, block_val row, panchayat_val row,
   year_val row, date_val row).

(** A name with fewer than seven '_'-separated fields before its suffix. *)
Definition too_few_fields (name : str) : Prop :=
  (length (PyStr.split "_" (stem name)) < 7)%nat.

(** The i-th '_'-separated segment of a base name, counted from 0. *)
Definition segment (i : nat) (base : str) : str :=
  nth i (PyStr.split "_" base) [].

(** * Dictionaries *)

(** A dict from str to str: its items in insertion order, keys distinct. *)
Abbreviation dict := (list (str * str)).

(** [d[key] = value]: a present key keeps its place and takes the new
    value, a new key goes to the end. *)
Fixpoint dict_set (key value : str) (d : dict) : dict :=
  match d with
  | [] => [(key, value)]
  | (k, v) :: rest =>
      if PyStr.eqb k key then (k, value) :: rest
      else (k, v) :: dict_set key value rest
  end.

(** * The browser and the handler state *)

(** An option element of a dropdown: its text and its value attribute. *)
Record WebOption := { text : str; value_attr : str }.

(** How the try block of _select_option ends: it runs through, it raises
    TimeoutException or ElementClickInterceptedException, or it raises
    another Exception. *)
Inductive Outcome := Selected | Transient | Failed.

Inductive Error :=
| NoOptionsFound (element_id : str)
| DriverError.

(** The calls the handler makes on the browser session, the output
    directory and the clock. A [bool] result is [false] when the call
    raised. *)
Class Driver (World : Type) := {
  (** wait for the element, find it and list its option elements *)
  find_options : str → Z → World → option (list WebOption) * World;
  (** wait for the overlay, wait for the dropdown, select_by_value, sleep *)
  select_by_value : str → str → World → Outcome * World;
  (** find the element, scroll it into view and click it by script *)
  script_click : str → World → bool * World;
  (** driver.refresh() *)
  refresh : World → bool * World;
  (** read page_source and write it, gzip-compressed, to the path *)
  write_page : str → World → bool * World;
  (** datetime.now().strftime(...) *)
  now : World → str * World
}.

Inductive Level := INFO | WARNING | ERROR.


(** An argument of a logging call. *)
Inductive Arg :=
| AStr (s : str)
| AInt (n : Z)
| AKey (key : Key)
| AErr (e : Error).

(** What the handler does to the outside, in order. *)
Inductive Effect :=
| Options (element_id : str) (found : option (list WebOption))
| Select (element_id value : str) (outcome : Outcome)
| ScriptClick (element_id : str) (ok : bool)
| Refresh (ok : bool)
| Save (filepath : str) (ok : bool)
| Log (level : Level) (format : str) (args : list Arg).

(** A result row: the seven values, the seven labels, the file and the
    time stamp. *)
Record Row := {
  row_vals : Combo;
  state_label : str;
  district_label : str;
  block_label : str;
  panchayat_label : str;
  year_label : str;
  date_label : str;
  option_label : str;
  html_file : str;
  timestamp : str
}.

(** The attributes of a FormHandler that change during a run, and the
    trace of its effects. *)
Record Handler (World : Type) := {
  driver : World;
  results : list Row;
  total_processed : Z;
  processed_set : gset Key;
  trace : list Effect
}.
Arguments driver {World} h.
Arguments results {World} h.
Arguments total_processed {World} h.
Arguments processed_set {World} h.
Arguments trace {World} h.

(** The dropdowns of the form. *)
Inductive Control := State | District | Block | Panchayat | Year | Date | Option.

Definition form_elements (control : Control) : str :=
  match control with
  | State => «"ctl00_ContentPlaceHolder1_ddlstate"»
  | District => «"ctl00_ContentPlaceHolder1_ddldistrict"»
  | Block => «"ctl00_ContentPlaceHolder1_ddlBlock"»
  | Panchayat => «"ctl00_ContentPlaceHolder1_ddlPanchayat"»
  | Year => «"ctl00_ContentPlaceHolder1_ddlAuditYear"»
  | Date => «"ctl00_ContentPlaceHolder1_ddlGSDate"»
  | Option => «"ctl00_ContentPlaceHolder1_ddlselect"»
  end.

Definition html_dir : str := «"../data/html"».

(** Default arguments. *)
Definition default_max_retries : Z := 1.
Definition default_max_wait : Z := 10.

(** The local constant of iterate_form. *)
Definition max_attempts : Z := 1.

(** [range(n)] *)
Definition range (n : Z) : list Z := Z.of_nat <$> seq 0 (Z.to_nat n).

(** How a loop body ends: it runs to its end or hits [continue], it hits
    [break], or an exception leaves it. *)
Inductive Flow := Next | Stop | Raised.

(** ** Pure parts of the helpers *)

(** The test of _get_options_dict on a stripped value:
    [not value or value.lower() in ["", "select", "choose", "0"]]. *)
Definition is_default (value : str) : bool :=
  match value with [] => true | _ => false end
  || PyStr.in_list (PyStr.lower value) [[]; «"select"»; «"choose"»; «"0"»].

(** An option that _get_options_dict keeps when exclude_default is on. *)
Definition kept (option : WebOption) : Prop :=
  is_default (PyStr.strip (value_attr option)) = false.

(** One turn of the loop over the option elements. *)
Definition collect_option (exclude_default : bool) (options_dict : dict)
    (option : WebOption) : dict :=
  let text := PyStr.strip (text option) in
  let value := PyStr.strip (value_attr option) in
  if exclude_default && is_default value then options_dict
  else dict_set value text options_dict.

(** The loop over the option elements and the emptiness test. *)
Definition options_dict_of (element_id : str) (exclude_default : bool)
    (options : list WebOption) : dict + Error :=
  let options_dict := foldl (collect_option exclude_default) [] options in
  match options_dict with
  | [] => inr (NoOptionsFound element_id)
  | _ => inl options_dict
  end.

(** The placeholder test as the specification words it: the value is
    empty, or the label is "select" or "choose", or the value is "0". *)
Definition spec_placeholder (option : WebOption) : bool :=
  match PyStr.strip (value_attr option) with [] => true | _ => false end
  || PyStr.in_list (PyStr.lower (PyStr.strip (text option)))
       [«"select"»; «"choose"»]
  || PyStr.eqb (PyStr.strip (value_attr option)) «"0"».

(** The label of the item, lower-cased, is "all". *)
Definition is_all (item : str * str) : Prop := PyStr.lower item.2 = «"all"».

(** The loop of iterate_form that looks for the label "all". *)
Fixpoint find_all (items : dict) : option (str * str) :=
  match items with
  | [] => None
  | (k, v) :: rest =>
      if PyStr.eqb (PyStr.lower v) «"all"» then Some (k, v) else find_all rest
  end.

(** The choice of [option_val, option_label]; [None] is the branch that
    warns and skips. *)
Definition choose_option (option_dict : dict) : option (str * str) :=
  match find_all option_dict with
  | Some item => Some item
  | None =>
      match option_dict with
      | item :: _ => Some item
      | [] => None
      end
  end.

(** [needle in s] *)
Fixpoint startswith (prefix s : str) : bool :=
  match prefix, s with
  | [], _ => true
  | _ :: _, [] => false
  | p :: prefix', c :: s' => Ascii.eqb p c && startswith prefix' s'
  end.

Fixpoint contains (needle s : str) : bool :=
  startswith needle s
  || match s with
     | [] => false
     | _ :: s' => contains needle s'
     end.

(** * The handler's methods *)

(** A method: a function from the handler state to a result and the
    next state. *)
Definition M (World A : Type) : Type := Handler World → A * Handler World.

Definition ret {World A} (a : A) : M World A := λ h, (a, h).

Definition bind {World A B} (m : M World A) (k : A → M World B) : M World B :=
  λ h, let (a, h') := m h in k a h'.

Notation "'let*' x ':=' m 'in' k" := (bind m (λ x, k))
  (at level 10, x name, m at level 100, k at level 200).

(** A call on the driver, recorded in the trace with its result. *)
Definition call {World A} (op : World → A * World) (effect : A → Effect)
  : M World A :=
  λ h, let (a, w) := op (driver h) in
       (a, {| driver := w; results := results h;
              total_processed := total_processed h;
              processed_set := processed_set h;
              trace := trace h ++ [effect a] |}).

(** A call on the clock, which leaves no trace. *)
Definition read_clock {World} (op : World → str * World) : M World str :=
  λ h, let (a, w) := op (driver h) in
       (a, {| driver := w; results := results h;
              total_processed := total_processed h;
              processed_set := processed_set h;
              trace := trace h |}).

(** [logging.<level>(format, *args)] *)
Definition log {World} (level : Level) (format : str) (args : list Arg)
  : M World unit :=
  λ h, (tt, {| driver := driver h; results := results h;
               total_processed := total_processed h;
               processed_set := processed_set h;
               trace := trace h ++ [Log level format args] |}).

(** [self.results.append(row)] *)
Definition append_result {World} (row : Row) : M World unit :=
  λ h, (tt, {| driver := driver h; results := results h ++ [row];
               total_processed := total_processed h;
               processed_set := processed_set h;
               trace := trace h |}).

(** [self.total_processed += 1] *)
Definition count_processed {World} : M World unit :=
  λ h, (tt, {| driver := driver h; results := results h;
               total_processed := total_processed h + 1;
               processed_set := processed_set h;
               trace := trace h |}).

(** [self.processed_set.add(key)] *)
Definition add_processed {World} (key : Key) : M World unit :=
  λ h, (tt, {| driver := driver h; results := results h;
               total_processed := total_processed h;
               processed_set := processed_set h ∪ {[ key ]};
               trace := trace h |}).

(** Reading an attribute. *)
Definition get {World A} (attribute : Handler World → A) : M World A :=
  λ h, (attribute h, h).

(** A [for] loop over a list: [Next] from the body goes on with the next
    item, [Stop] ends the loop, [Raised] ends it and leaves the loop with
    the exception. *)
Fixpoint for_items {World A} (body : A → M World Flow) (items : list A)
  : M World Flow :=
  match items with
  | [] => ret Next
  | item :: rest =>
      let* flow := body item in
      match flow with
      | Next => for_items body rest
      | Stop => ret Next
      | Raised => ret Raised
      end
  end.

Section Methods.
Context {World : Type} `{Driver World}.

(** The loop of _select_option over [range(max_retries)]; the end of the
    list is the [return False] after the loop. *)
Fixpoint select_attempts (element_id value : str) (max_retries : Z)
    (attempts : list Z) : M World bool :=
  match attempts with
  | [] => ret false
  | attempt :: rest =>
      let* outcome :=
        call (select_by_value element_id value) (Select element_id value) in
      match outcome with
      | Selected => ret true
      | Transient =>
          let* _ := log WARNING
            «"Error selecting option %s for element %s: %s. Attempt %d of %d."»
            [AStr value; AStr element_id; AErr DriverError;
             AInt (attempt + 1); AInt max_retries] in
          let* clicked :=
            call (script_click element_id) (ScriptClick element_id) in
          let* _ :=
            if clicked then ret tt
            else log WARNING
                   «"Could not scroll or click element %s via JS: %s"»
                   [AStr element_id; AErr DriverError] in
          select_attempts element_id value max_retries rest
      | Failed =>
          if attempt =? max_retries - 1 then
            let* _ := log ERROR
              «"Failed selecting option %s for element %s after %d attempts: %s"»
              [AStr value; AStr element_id; AInt max_retries;
               AErr DriverError] in
            ret false
          else
            let* _ := log WARNING
              «"Error selecting option %s for element %s: %s. Retrying..."»
              [AStr value; AStr element_id; AErr DriverError] in
            select_attempts element_id value max_retries rest
      end
  end.

Definition _select_option (element_id value : str) (max_retries : Z)
  : M World bool :=
  select_attempts element_id value max_retries (range max_retries).

(** _get_options_dict for an element given by its id; [inr] is the
    exception it raises again after logging it. *)
Definition _get_options_dict (element : str) (exclude_default : bool)
    (max_wait : Z) : M World (dict + Error) :=
  let* found := call (find_options element max_wait) (Options element) in
  let result :=
    match found with
    | None => inr DriverError
    | Some options => options_dict_of element exclude_default options
    end in
  match result with
  | inl options_dict => ret (inl options_dict)
  | inr e =>
      let* _ := log ERROR «"Error getting options for element %s: %s"»
                  [AStr element; AErr e] in
      ret (inr e)
  end.

(** _save_webpage: the path on success, the empty string on failure. *)
Definition _save_webpage (row : Combo) : M World str :=
  let filename := page_filename row in
  let filepath := html_dir ++ "/" :: filename in
  let* written := call (write_page filepath) (Save filepath) in
  if written then ret filepath
  else
    let* _ := log ERROR «"Error saving compressed HTML: %s"»
                [AErr DriverError] in
    ret [].

(** The six selections after a refresh; _select_option raises nothing,
    so the [except] around them is never entered. *)
Definition reselect (row : Combo) : M World unit :=
  let* _ := _select_option (form_elements State) (state_val row)
              default_max_retries in
  let* _ := _select_option (form_elements District) (district_val row)
              default_max_retries in
  let* _ := _select_option (form_elements Block) (block_val row)
              default_max_retries in
  let* _ := _select_option (form_elements Panchayat) (panchayat_val row)
              default_max_retries in
  let* _ := _select_option (form_elements Year) (year_val row)
              default_max_retries in
  let* _ := _select_option (form_elements Date) (date_val row)
              default_max_retries in
  ret tt.

(** The loop [while attempts < max_attempts]. [attempts] grows by one in
    every turn that does not leave the loop, so [remaining], the number
    of turns left, is [max_attempts - attempts]. The result is [success],
    or [None] when driver.refresh() raised. *)
Fixpoint select_final_option (remaining : nat) (attempts : Z) (row : Combo)
  : M World (option bool) :=
  match remaining with
  | O => ret (Some false)
  | S remaining' =>
      let* selected := _select_option (form_elements Option) (option_val row)
                         default_max_retries in
      if selected then ret (Some true)
      else
        let* _ := log WARNING
          «"Failed to select final option %s on attempt %d."»
          [AStr (option_val row); AInt (attempts + 1)] in
        let* refreshed := call refresh Refresh in
        if refreshed then
          let* _ := reselect row in
          select_final_option remaining' (attempts + 1) row
        else ret None
  end.

(** The body of the loop over dates from the choice of the option on. *)
Definition visit_combination
    (state district block panchayat year date : str * str)
    (option_dict : dict) : M World Flow :=
  match choose_option option_dict with
  | None =>
      let* _ := log WARNING
        «"No option found for the 'option' dropdown; skipping combination."»
        [] in
      ret Next
  | Some (option_val, option_label) =>
      let row := {| state_val := state.1; district_val := district.1;
                    block_val := block.1; panchayat_val := panchayat.1;
                    year_val := year.1; date_val := date.1;
                    option_val := option_val |} in
      let key := key_of row in
      let* processed := get processed_set in
      if decide (key ∈ processed) then
        let* _ := log INFO «"Combination already processed, skipping: %s"»
                    [AKey key] in
        ret Next
      else
        let* success :=
          select_final_option (Z.to_nat max_attempts) 0 row in
        match success with
        | None => ret Raised
        | Some false =>
            let* _ := log ERROR
              «"Maximum attempts reached for combination %s. Skipping."»
              [AKey key] in
            ret Next
        | Some true =>
            let* html_file := _save_webpage row in
            let* timestamp := read_clock now in
            let* _ := append_result
              {| row_vals := row;
                 state_label := state.2; district_label := district.2;
                 block_label := block.2; panchayat_label := panchayat.2;
                 year_label := year.2; date_label := date.2;
                 option_label := option_label;
                 html_file := html_file; timestamp := timestamp |} in
            let* _ := count_processed in
            let* _ := add_processed key in
            let* total := get total_processed in
            let* _ := log INFO
              («"[%d] Processed: State: %s (%s), District: %s (%s), "»
               ++ «"Block: %s (%s), Panchayat: %s (%s), Year: %s (%s), "»
               ++ «"Date: %s (%s), Option: %s (%s). HTML saved to %s"»)
              [AInt total; AStr state.2; AStr state.1;
               AStr district.2; AStr district.1; AStr block.2; AStr block.1;
               AStr panchayat.2; AStr panchayat.1; AStr year.2; AStr year.1;
               AStr date.2; AStr date.1; AStr option_label; AStr option_val;
               AStr html_file] in
            ret Stop
        end
  end.

Definition visit_date (state district block panchayat year date : str * str)
  : M World Flow :=
  let* selected := _select_option (form_elements Date) date.1
                     default_max_retries in
  if negb selected then
    let* _ := log WARNING «"Skipping date %s."» [AStr date.1] in ret Next
  else
    let* found := _get_options_dict (form_elements Option) false
                    default_max_wait in
    match found with
    | inr e =>
        let* _ := log ERROR «"Unable to get option values: %s"» [AErr e] in
        ret Next
    | inl option_dict =>
        visit_combination state district block panchayat year date option_dict
    end.

Definition visit_year (state district block panchayat year : str * str)
  : M World Flow :=
  let* selected := _select_option (form_elements Year) year.1
                     default_max_retries in
  if negb selected then
    let* _ := log WARNING «"Skipping year %s."» [AStr year.1] in ret Next
  else
    let* found := _get_options_dict (form_elements Date) true
                    default_max_wait in
    match found with
    | inr e =>
        let* _ := log ERROR «"Unable to get date options for year %s: %s"»
                    [AStr year.1; AErr e] in
        ret Next
    | inl date_dict =>
        for_items (visit_date state district block panchayat year) date_dict
    end.

Definition visit_panchayat (state district block panchayat : str * str)
  : M World Flow :=
  let* selected := _select_option (form_elements Panchayat) panchayat.1
                     default_max_retries in
  if negb selected then
    let* _ := log WARNING «"Skipping panchayat %s."» [AStr panchayat.1] in
    ret Next
  else
    let* found := _get_options_dict (form_elements Year) true
                    default_max_wait in
    match found with
    | inr e =>
        let* _ := log ERROR
          «"Unable to get year options for panchayat %s: %s"»
          [AStr panchayat.1; AErr e] in
        ret Next
    | inl year_dict =>
        for_items (visit_year state district block panchayat) year_dict
    end.

Definition visit_block (state district block : str * str) : M World Flow :=
  let* selected := _select_option (form_elements Block) block.1
                     default_max_retries in
  if negb selected then
    let* _ := log WARNING «"Skipping block %s."» [AStr block.1] in ret Next
  else
    let* found := _get_options_dict (form_elements Panchayat) true
                    default_max_wait in
    match found with
    | inr e =>
        let* _ := log ERROR
          «"Unable to get panchayat options for block %s: %s"»
          [AStr block.1; AErr e] in
        ret Next
    | inl panchayat_dict =>
        for_items (visit_panchayat state district block) panchayat_dict
    end.

Definition visit_district (state district : str * str) : M World Flow :=
  let* selected := _select_option (form_elements District) district.1
                     default_max_retries in
  if negb selected then
    let* _ := log WARNING «"Skipping district %s."» [AStr district.1] in
    ret Next
  else
    let* found := _get_options_dict (form_elements Block) true
                    default_max_wait in
    match found with
    | inr e =>
        let* _ := log ERROR
          «"Unable to get block options for district %s: %s"»
          [AStr district.1; AErr e] in
        ret Next
    | inl block_dict => for_items (visit_block state district) block_dict
    end.

Definition visit_state (state : str * str) : M World Flow :=
  if negb (contains «"meghalaya"» (PyStr.lower state.2)) then ret Next
  else
    let* selected := _select_option (form_elements State) state.1
                       default_max_retries in
    if negb selected then
      let* _ := log WARNING
        «"Skipping state %s due to selection failure."» [AStr state.1] in
      ret Next
    else
      let* found := _get_options_dict (form_elements District) true
                      default_max_wait in
      match found with
      | inr e =>
          let* _ := log ERROR
            «"Unable to get district options for state %s: %s"»
            [AStr state.1; AErr e] in
          ret Next
      | inl district_dict => for_items (visit_district state) district_dict
      end.

(** iterate_form; [Next] is a return, [Raised] an exception. *)
Definition iterate_form : M World Flow :=
  let* found := _get_options_dict (form_elements State) true
                  default_max_wait in
  match found with
  | inr e =>
      let* _ := log ERROR «"Unable to get state options: %s"» [AErr e] in
      ret Next
  | inl state_dict => for_items visit_state state_dict
  end.

End Methods.

(** __init__ from the attributes on: the browser session [w] is open and
    [listing] is what the output directory holds. *)
Definition init {World} (w : World) (listing : option (list str))
  : Handler World :=
  {| driver := w; results := []; total_processed := 0;
     processed_set := _load_processed_set listing; trace := [] |}.

(** * Reading a trace *)

(** The outcomes of the selections tried, in order. *)
Fixpoint select_outcomes (t : list Effect) : list Outcome :=
  match t with
  | [] => []
  | Select _ _ outcome :: t' => outcome :: select_outcomes t'
  | _ :: t' => select_outcomes t'
  end.

(** The fallback maneuvers, successful or not. *)
Fixpoint script_clicks (t : list Effect) : list bool :=
  match t with
  | [] => []
  | ScriptClick _ ok :: t' => ok :: script_clicks t'
  | _ :: t' => script_clicks t'
  end.

(** How many of the outcomes are transient failures. *)
Fixpoint transients (outcomes : list Outcome) : nat :=
  match outcomes with
  | [] => 0
  | Transient :: rest => S (transients rest)
  | _ :: rest => transients rest
  end.

(** The steps that move the browser or write a file, without their
    results, in order. *)
Inductive Step :=
| Selecting (element_id value : str)
| Refreshing
| Saving (filepath : str).

#[global] Instance Step_eq_dec : EqDecision Step.
Proof. solve_decision. Defined.

Fixpoint steps (t : list Effect) : list Step :=
  match t with
  | [] => []
  | Select element_id value _ :: t' => Selecting element_id value :: steps t'
  | Refresh _ :: t' => Refreshing :: steps t'
  | Save filepath _ :: t' => Saving filepath :: steps t'
  | _ :: t' => steps t'
  end.

(** The steps that follow the first refresh. *)
Fixpoint after_refresh (s : list Step) : list Step :=
  match s with
  | [] => []
  | Refreshing :: s' => s'
  | _ :: s' => after_refresh s'
  end.

(** The paths of the pages saved or tried to save, in order. *)
Fixpoint saved (s : list Step) : list str :=
  match s with
  | [] => []
  | Saving filepath :: s' => filepath :: saved s'
  | _ :: s' => saved s'
  end.

Definition saves (t : list Effect) : list str := saved (steps t).

(** The six selections that lead to a combination. *)
Definition ancestors (row : Combo) : list Step :=
  [Selecting (form_elements State) (state_val row);
   Selecting (form_elements District) (district_val row);
   Selecting (form_elements Block) (block_val row);
   Selecting (form_elements Panchayat) (panchayat_val row);
   Selecting (form_elements Year) (year_val row);
   Selecting (form_elements Date) (date_val row)].

(** [quiet h h' t]: from [h] to [h'] the trace grew by [t] and the
    attributes results, total_processed and processed_set stayed. *)
Definition quiet {World} (h h' : Handler World) (t : list Effect) : Prop :=
  trace h' = trace h ++ t ∧ results h' = results h
  ∧ total_processed h' = total_processed h
  ∧ processed_set h' = processed_set h.

(** The key of a result row and the path its page was saved under. *)
Definition row_key (row : Row) : Key := key_of (row_vals row).

Definition page_path (row : Combo) : str := html_dir ++ "/" :: page_filename row.

Section Reach.
Context {World : Type} `{Driver World}.

(** The dropdown can show the value: in some state of the session it has
    an option, not a placeholder, with this value. *)
Definition offered (control : Control) (value : str) : Prop :=
  ∃ w max_wait options option,
    (find_options (form_elements control) max_wait w).1 = Some options
    ∧ option ∈ options ∧ kept option
    ∧ PyStr.strip (value_attr option) = value.

(** A combination the form can show. *)
Definition reachable (row : Combo) : Prop :=
  offered State (state_val row) ∧ offered District (district_val row)
  ∧ offered Block (block_val row) ∧ offered Panchayat (panchayat_val row)
  ∧ offered Year (year_val row) ∧ offered Date (date_val row).

(** [grows h h' t rows]: from [h] to [h'] the trace grew by [t], the rows
    were appended to results and counted, their keys were added to the
    processed set, and a page was saved for each of them and for nothing
    else; the rows are of reachable combinations whose keys were not in
    the processed set of [h], and no two have the same key. *)
Definition grows (h h' : Handler World) (t : list Effect) (rows : list Row)
  : Prop :=
  trace h' = trace h ++ t
  ∧ results h' = results h ++ rows
  ∧ total_processed h' = total_processed h + Z.of_nat (length rows)
  ∧ processed_set h' = processed_set h ∪ list_to_set (row_key <$> rows)
  ∧ saves t = (λ row, page_path (row_vals row)) <$> rows
  ∧ Forall (λ row, row_key row ∉ processed_set h) rows
  ∧ NoDup (row_key <$> rows)
  ∧ Forall (λ row, reachable (row_vals row)) rows.

(** [growing h h']: [h'] comes from [h] by saving and recording rows. *)
Definition growing (h h' : Handler World) : Prop := ∃ t rows, grows h h' t rows.

(** The shape that the bodies of the loops over states, districts, blocks,
    panchayats and years share: select the value, read the next dropdown,
    loop over its items. *)
Definition level (control next : Control) (value : str)
    (skip_format error_format : str) (inner : str * str → M World Flow)
  : M World Flow :=
  let* selected := _select_option (form_elements control) value
                     default_max_retries in
  if negb selected then
    let* _ := log WARNING skip_format [AStr value] in ret Next
  else
    let* found := _get_options_dict (form_elements next) true
                    default_max_wait in
    match found with
    | inr e =>
        let* _ := log ERROR error_format [AStr value; AErr e] in ret Next
    | inl items => for_items inner items
    end.

End Reach.

(** * Values as the dropdowns give them *)

(** The six key values have no white space at either end, as the values
    that _get_options_dict returns. *)
Definition stripped (row : Combo) : Prop :=
  PyStr.strip (state_val row) = state_val row
  ∧ PyStr.strip (district_val row) = district_val row
  ∧ PyStr.strip (block_val row) = block_val row
  ∧ PyStr.strip (panchayat_val row) = panchayat_val row
  ∧ PyStr.strip (year_val row) = year_val row
  ∧ PyStr.strip (date_val row) = date_val row.

(** The seven values after the character-wise sanitization. *)
Definition cleaned (row : Combo) : Combo :=
  {| state_val := map sanitize_char (state_val row);
     district_val := map sanitize_char (district_val row);
     block_val := map sanitize_char (block_val row);
     panchayat_val := map sanitize_char (panchayat_val row);
     year_val := map sanitize_char (year_val row);
     date_val := map sanitize_char (date_val row);
     option_val := map sanitize_char (option_val row) |}.

(** Every field of the key is in sanitized form. *)
Definition clean_key (key : Key) : Prop :=
  let '(a, b, c, d, e, f) := key in
  clean a ∧ clean b ∧ clean c ∧ clean d ∧ clean e ∧ clean f.

(** [d.get(key)] *)
Fixpoint dict_get (key : str) (d : dict) : option str :=
  match d with
  | [] => None
  | (k, v) :: rest => if PyStr.eqb k key then Some v else dict_get key rest
  end.

(** The option passes the test of _get_options_dict. *)
Definition included (exclude_default : bool) (option : WebOption) : bool :=
  negb (exclude_default && is_default (PyStr.strip (value_attr option))).

(** The labels of the included options with the given value, in order. *)
Fixpoint labels_of (exclude_default : bool) (value : str)
    (options : list WebOption) : list str :=
  match options with
  | [] => []
  | option :: rest =>
      if included exclude_default option
         && PyStr.eqb (PyStr.strip (value_attr option)) value
      then PyStr.strip (text option) :: labels_of exclude_default value rest
      else labels_of exclude_default value rest
  end.

(** The label of the state does not name the target. *)
Definition off_target (state : str * str) : Prop :=
  contains «"meghalaya"» (PyStr.lower state.2) = false.

(** * Predicates on traces *)

(** [tracing P h h']: from [h] to [h'] the trace grew by effects whose
    steps satisfy [P]. *)
Definition tracing {World} (P : list Step → Prop) (h h' : Handler World)
  : Prop :=
  ∃ t, trace h' = trace h ++ t ∧ P (steps t).

(** Every selection in the state dropdown is of the value [state]. *)
Definition only_state (state : str) (s : list Step) : Prop :=
  Forall (λ step, ∀ value,
            step = Selecting (form_elements State) value → value = state) s.

(** Every selection in the state dropdown is of an item of [states] whose
    label names the target. *)
Definition only_target (states : dict) (s : list Step) : Prop :=
  Forall (λ step, ∀ value,
            step = Selecting (form_elements State) value →
            ∃ label, (value, label) ∈ states ∧ ¬ off_target (value, label)) s.

Section Offered.
Context {World : Type} `{Driver World}.

(** Every selection in one of the six dropdowns of the key is of a value
    that the dropdown offers. *)
Definition only_offered (s : list Step) : Prop :=
  Forall (λ step, ∀ control value,
            control ≠ Option →
            step = Selecting (form_elements control) value →
            offered control value) s.

End Offered.

(** [halting h h' flow]: the trace grew, and when [flow] is [Raised] the
    last effect is a refresh that raised. *)
Definition halting {World} (h h' : Handler World) (flow : Flow) : Prop :=
  ∃ t, trace h' = trace h ++ t
       ∧ (flow = Raised → last t = Some (Refresh false)).

(** * Sample inputs *)

Definition combo_a_b : Combo :=
  {| state_val := «"a_b"»; district_val := «"c"»; block_val := «"d"»;
     panchayat_val := «"e"»; year_val := «"f"»; date_val := «"g"»;
     option_val := «"All"» |}.

Definition combo_meghalaya : Combo :=
  {| state_val := «"Meghalaya"»; district_val := «"East-Khasi-Hills"»;
     block_val := «"Block1"»; panchayat_val := «"GP1"»;
     year_val := «"2020-21"»; date_val := «"15-01-2021"»;
     option_val := «"All"» |}.

Definition name_meghalaya : str :=
  «"Meghalaya_East-Khasi-Hills_Block1_GP1_2020-21_15-01-2021_All.html.gz"».

Definition key_meghalaya : Key :=
  («"Meghalaya"», «"East-Khasi-Hills"», «"Block1"», «"GP1"», «"2020-21"»,
   «"15-01-2021"»).

(** A form that behaves the same at every call: the options of each
    dropdown, the outcome of each selection, and whether the fallback
    click, the refresh and the write go through. *)
Record Site := {
  site_options : str → option (list WebOption);
  site_outcome :  str → str → Outcome;
  site_click : bool;
  site_refresh : bool;
  site_write : bool;
  site_time : str
}.

(** A browser session on such a form; it has one state. *)
Inductive Session (site : Site) : Type := session.
Arguments session site : clear implicits.

#[global] Instance Session_driver (site : Site) : Driver (Session site) := {|
  find_options element_id _ w := (site_options site element_id, w);
  select_by_value element_id value w := (site_outcome site element_id value, w);
  script_click _ w := (site_click site, w);
  refresh w := (site_refresh site, w);
  write_page _ w := (site_write site, w);
  now w := (site_time site, w)
|}.

Definition placeholder : WebOption :=
  {| text := «"Select"»; value_attr := «"0"» |}.

(** One state, district, block, panchayat and year, two dates, and the
    options All and Some. *)
Definition demo_options (element_id : str) : option (list WebOption) :=
  if PyStr.eqb element_id (form_elements State) then
    Some [placeholder;
          {| text := «"KERALA"»; value_attr := «"16"» |};
          {| text := «"MEGHALAYA"»; value_attr := «"21"» |}]
  else if PyStr.eqb element_id (form_elements District) then
    Some [placeholder; {| text := «"EAST KHASI HILLS"»; value_attr := «"2104"» |}]
  else if PyStr.eqb element_id (form_elements Block) then
    Some [placeholder; {| text := «"MAWPHLANG"»; value_attr := «"2104003"» |}]
  else if PyStr.eqb element_id (form_elements Panchayat) then
    Some [placeholder; {| text := «"GP1"»; value_attr := «"2104003001"» |}]
  else if PyStr.eqb element_id (form_elements Year) then
    Some [placeholder; {| text := «"2020-2021"»; value_attr := «"2020-2021"» |}]
  else if PyStr.eqb element_id (form_elements Date) then
    Some [placeholder;
          {| text := «"15/01/2021"»; value_attr := «"15-01-2021"» |};
          {| text := «"20/02/2021"»; value_attr := «"20-02-2021"» |}]
  else if PyStr.eqb element_id (form_elements Option) then
    Some [{| text := «"All"»; value_attr := «"1"» |};
          {| text := «"Some"»; value_attr := «"2"» |}]
  else None.

(** Every selection and every call goes through. *)
Definition demo_site : Site :=
  {| site_options := demo_options;
     site_outcome := λ _ _, Selected;
     site_click := true; site_refresh := true; site_write := true;
     site_time := «"2021-03-01 10:00:00"» |}.

(** The same form, except that selecting in the option dropdown fails. *)
Definition stuck_site : Site :=
  {| site_options := demo_options;
     site_outcome := λ element_id _,
       if PyStr.eqb element_id (form_elements Option) then Failed
       else Selected;
     site_click := true; site_refresh := true; site_write := true;
     site_time := «"2021-03-01 10:00:00"» |}.

(** The items of the dropdowns of that form, as iterate_form meets them. *)
Definition demo_state : str * str := («"21"», «"MEGHALAYA"»).
Definition demo_district : str * str := («"2104"», «"EAST KHASI HILLS"»).
Definition demo_block : str * str := («"2104003"», «"MAWPHLANG"»).
Definition demo_panchayat : str * str := («"2104003001"», «"GP1"»).
Definition demo_year : str * str := («"2020-2021"», «"2020-2021"»).
Definition demo_date : str * str := («"15-01-2021"», «"15/01/2021"»).
Definition demo_option_dict : dict := [(«"1"», «"All"»); («"2"», «"Some"»)].

Definition demo_combo (date : str) : Combo :=
  {| state_val := «"21"»; district_val := «"2104"»;
     block_val := «"2104003"»; panchayat_val := «"2104003001"»;
     year_val := «"2020-2021"»; date_val := date; option_val := «"1"» |}.

(** A state dropdown with an option labelled "Select" whose value is "x"
    and an option labelled "Shillong" whose value is "Choose". *)
Definition labelled_site : Site :=
  {| site_options := λ _,
       Some [{| text := «"Select"»; value_attr := «"x"» |};
             {| text := «"Shillong"»; value_attr := «"Choose"» |}];
     site_outcome := λ _ _, Selected;
     site_click := true; site_refresh := true; site_write := true;
     site_time := «"2021-03-01 10:00:00"» |}.

(** A handler on the demo form whose processed set holds the keys of all
    the combinations that the form can show. *)
Definition demo_keys : list Key :=
  [key_of (demo_combo «"15-01-2021"»); key_of (demo_combo «"20-02-2021"»);
   («"16"», «"2104"», «"2104003"», «"2104003001"», «"2020-2021"», «"15-01-2021"»);
   («"16"», «"2104"», «"2104003"», «"2104003001"», «"2020-2021"», «"20-02-2021"»)].

Definition demo_done : Handler (Session demo_site) :=
  {| driver := session demo_site; results := []; total_processed := 0;
     processed_set := list_to_set demo_keys; trace := [] |}.

(** Values as a dropdown may give them: a date with slashes. *)
Definition raw_combo : Combo :=
  {| state_val := «"21"»; district_val := «"2104"»;
     block_val := «"2104003"»; panchayat_val := «"2104003001"»;
     year_val := «"2020-2021"»; date_val := «"15/01/2021"»;
     option_val := «"1"» |}.

Definition kerala_only : Site :=
  {| site_options := λ _,
       Some [{| text := «"KERALA"»; value_attr := «"16"» |}];
     site_outcome := λ _ _, Selected;
     site_click := true; site_refresh := true; site_write := true;
     site_time := [] |}.

(** A form whose dropdowns show nothing but the placeholder. *)
Definition placeholder_only : Site :=
  {| site_options := λ _, Some [placeholder];
     site_outcome := λ _ _, Selected;
     site_click := true; site_refresh := true; site_write := true;
     site_time := [] |}.

(** The demo form on a disk that cannot be written. *)
Definition unwritable_site : Site :=
  {| site_options := demo_options;
     site_outcome := λ _ _, Selected;
     site_click := true; site_refresh := true; site_write := false;
     site_time := «"2021-03-01 10:00:00"» |}.

(** * Properties *)

(** ** Sanitization *)

Lemma keep_char_not_space c : keep_char c = true → PyStr.isspace c = false.
Proof. destruct c as [[] [] [] [] [] [] [] []]; vm_compute; congruence. Qed.

Lemma sanitize_char_keep c : keep_char (sanitize_char c) = true.
Proof. unfold sanitize_char. destruct (keep_char c) eqn:E; [exact E | reflexivity]. Qed.

Lemma sanitize_char_id c : keep_char c = true → sanitize_char c = c.
Proof. unfold sanitize_char. intros ->. reflexivity. Qed.

Lemma keep_char_cases c :
  keep_char c = true ↔ PyStr.isalnum c = true ∨ c = "_" ∨ c = "-" ∨ c = ".".
Proof.
  unfold keep_char, PyStr.char_in. simpl.
  rewrite !orb_true_iff, !Ascii.eqb_eq. intuition congruence.
Qed.

Lemma lstrip_clean s : clean s → PyStr.lstrip s = s.
Proof.
  destruct 1 as [|c r Hc _]; simpl; [reflexivity|].
  rewrite (keep_char_not_space c Hc). reflexivity.
Qed.

Lemma strip_clean s : clean s → PyStr.strip s = s.
Proof.
  intros H. unfold PyStr.strip, PyStr.rstrip.
  rewrite (lstrip_clean s H), lstrip_clean, rev_involutive; [reflexivity|].
  unfold clean. apply Forall_rev, H.
Qed.

Lemma sanitize_clean s : clean (map sanitize_char s).
Proof. induction s; constructor; [apply sanitize_char_keep | assumption]. Qed.

Lemma sanitize_id s : clean s → map sanitize_char s = s.
Proof.
  induction 1 as [|c r Hc _ IH]; simpl; [reflexivity|].
  rewrite (sanitize_char_id c Hc), IH. reflexivity.
Qed.

Lemma clean_value_clean s : clean (clean_value s).
Proof. apply sanitize_clean. Qed.

Lemma clean_value_id s : clean s → clean_value s = s.
Proof.
  intros H. unfold clean_value. rewrite (strip_clean s H). apply sanitize_id, H.
Qed.

Lemma clean_value_fixed_iff s : clean_value s = s ↔ clean s.
Proof.
  split; [intros <-; apply clean_value_clean | apply clean_value_id].
Qed.

(** C5: clean_value is idempotent, and every character of its result is
    alphanumeric or one of '_', '-', '.'. *)
Theorem C5_clean_value_idempotent_and_safe (s : str) :
  clean_value (clean_value s) = clean_value s
  ∧ ∀ c, c ∈ clean_value s →
         PyStr.isalnum c = true ∨ c = "_" ∨ c = "-" ∨ c = ".".
Proof.
  split.
  - apply clean_value_id, clean_value_clean.
  - intros c Hc. apply keep_char_cases.
    exact (proj1 (Forall_forall _ _) (clean_value_clean s) c Hc).
Qed.

(** ** Splitting and joining *)

Section Split.
Variable sep : ascii.

Lemma cut_Some s a b :
  PyStr.cut sep s = Some (a, b) → s = a ++ sep :: b ∧ sep ∉ a.
Proof.
  revert a b. induction s as [|c r IH]; intros a b; simpl; [discriminate|].
  destruct (Ascii.eqb c sep) eqn:E.
  - apply Ascii.eqb_eq in E as ->. intros [= <- <-].
    split; [reflexivity | apply not_elem_of_nil].
  - destruct (PyStr.cut sep r) as [[a' b']|]; [|discriminate].
    intros [= <- <-]. destruct (IH a' b' eq_refl) as [-> Ha'].
    split; [reflexivity|]. apply not_elem_of_cons. split; [|exact Ha'].
    intros ->. rewrite Ascii.eqb_refl in E. discriminate.
Qed.

Lemma cut_None s : PyStr.cut sep s = None ↔ sep ∉ s.
Proof.
  induction s as [|c r IH]; simpl.
  - split; [intros _; apply not_elem_of_nil | reflexivity].
  - destruct (Ascii.eqb c sep) eqn:E.
    + apply Ascii.eqb_eq in E as ->. split; [discriminate|].
      intros H. destruct H. apply list_elem_of_here.
    + rewrite not_elem_of_cons, <- IH.
      destruct (PyStr.cut sep r) as [[a b]|]; split; try discriminate; auto.
      * intros [_ ?]. discriminate.
      * intros _. split; [|reflexivity].
        intros ->. rewrite Ascii.eqb_refl in E. discriminate.
Qed.

Lemma cut_app a b : sep ∉ a → PyStr.cut sep (a ++ sep :: b) = Some (a, b).
Proof.
  induction a as [|c r IH]; simpl; intros H.
  - rewrite Ascii.eqb_refl. reflexivity.
  - apply not_elem_of_cons in H as [Hc Hr].
    destruct (Ascii.eqb c sep) eqn:E.
    + apply Ascii.eqb_eq in E. congruence.
    + rewrite (IH Hr). reflexivity.
Qed.

Lemma split_max_nonempty n s : PyStr.split_max sep n s ≠ [].
Proof. destruct n; simpl; [|destruct (PyStr.cut sep s) as [[]|]]; discriminate. Qed.

Lemma split_max_length n s : (length (PyStr.split_max sep n s) ≤ S n)%nat.
Proof.
  revert s. induction n as [|n IH]; intros s; simpl; [lia|].
  destruct (PyStr.cut sep s) as [[a b]|]; simpl; [|lia].
  specialize (IH b). lia.
Qed.

Lemma split_max_enough n m s :
  (length s ≤ n)%nat → (length s ≤ m)%nat →
  PyStr.split_max sep n s = PyStr.split_max sep m s.
Proof.
  revert m s. induction n as [|n IH]; intros m s Hn Hm.
  - destruct s; [|simpl in Hn; lia]. destruct m; reflexivity.
  - destruct m as [|m].
    + destruct s; [reflexivity | simpl in Hm; lia].
    + simpl. destruct (PyStr.cut sep s) as [[a b]|] eqn:E; [|reflexivity].
      apply cut_Some in E as [-> _]. rewrite length_app in Hn, Hm.
      simpl in Hn, Hm. f_equal. apply IH; lia.
Qed.

Lemma split_cut s a b :
  PyStr.cut sep s = Some (a, b) → PyStr.split sep s = a :: PyStr.split sep b.
Proof.
  intros E. unfold PyStr.split. destruct (cut_Some _ _ _ E) as [Hs _].
  destruct (length s) as [|n] eqn:Hn.
  - subst s. rewrite length_app in Hn. simpl in Hn. lia.
  - simpl. rewrite E. f_equal. apply split_max_enough; [|lia].
    subst s. rewrite length_app in Hn. simpl in Hn. lia.
Qed.

Lemma split_no_sep s : sep ∉ s → PyStr.split sep s = [s].
Proof.
  intros H. apply cut_None in H. unfold PyStr.split.
  destruct (length s); simpl; [|rewrite H]; reflexivity.
Qed.

Lemma split_app a b :
  sep ∉ a → PyStr.split sep (a ++ sep :: b) = a :: PyStr.split sep b.
Proof. intros H. apply split_cut, cut_app, H. Qed.

Lemma join_cons a l :
  l ≠ [] → PyStr.join sep (a :: l) = a ++ sep :: PyStr.join sep l.
Proof. destruct l; [congruence | reflexivity]. Qed.

Lemma join_split_max n s : PyStr.join sep (PyStr.split_max sep n s) = s.
Proof.
  revert s. induction n as [|n IH]; intros s; simpl; [reflexivity|].
  destruct (PyStr.cut sep s) as [[a b]|] eqn:E; [|reflexivity].
  rewrite join_cons by apply split_max_nonempty.
  rewrite IH. symmetry. apply (cut_Some _ _ _ E).
Qed.

(** [split] with a bound: the first [n] segments, and the rest of the
    string, separators included, as the last part. *)
Lemma split_max_fold n s :
  (n < length (PyStr.split sep s))%nat →
  PyStr.split_max sep n s =
    take n (PyStr.split sep s) ++ [PyStr.join sep (drop n (PyStr.split sep s))].
Proof.
  revert s. induction n as [|n IH]; intros s Hn.
  - rewrite take_0, drop_0. unfold PyStr.split.
    rewrite join_split_max. reflexivity.
  - cbn [PyStr.split_max]. destruct (PyStr.cut sep s) as [[a b]|] eqn:E.
    + rewrite (split_cut _ _ _ E) in Hn |- *. cbn [length take drop app] in Hn |- *.
      rewrite IH by lia. reflexivity.
    + apply cut_None, split_no_sep in E. rewrite E in Hn. simpl in Hn. lia.
Qed.

Lemma split_max_all n s :
  (length (PyStr.split sep s) ≤ S n)%nat →
  PyStr.split_max sep n s = PyStr.split sep s.
Proof.
  revert s. induction n as [|n IH]; intros s Hn.
  - simpl. destruct (PyStr.cut sep s) as [[a b]|] eqn:E.
    + rewrite (split_cut _ _ _ E) in Hn. simpl in Hn.
      pose proof (split_max_nonempty (length b) b) as Hb.
      unfold PyStr.split in Hn. destruct (PyStr.split_max sep (length b) b);
        [congruence | simpl in Hn; lia].
    + apply cut_None, split_no_sep in E. congruence.
  - simpl. destruct (PyStr.cut sep s) as [[a b]|] eqn:E.
    + rewrite (split_cut _ _ _ E) in Hn |- *. simpl in Hn.
      rewrite IH by lia. reflexivity.
    + apply cut_None, split_no_sep in E. congruence.
Qed.

Lemma rsplit1_app a b :
  sep ∉ b → PyStr.rsplit1 sep (a ++ sep :: b) = inl (a, b).
Proof.
  intros H. unfold PyStr.rsplit1.
  rewrite rev_app_distr. simpl. rewrite <- app_assoc. simpl.
  rewrite cut_app, !rev_involutive; [reflexivity|].
  rewrite list_elem_of_In, <- in_rev, <- list_elem_of_In. exact H.
Qed.

Lemma rsplit1_inl s a b :
  PyStr.rsplit1 sep s = inl (a, b) → s = a ++ sep :: b ∧ sep ∉ b.
Proof.
  unfold PyStr.rsplit1.
  destruct (PyStr.cut sep (rev s)) as [[b' a']|] eqn:E; [|discriminate].
  intros [= <- <-]. apply cut_Some in E as [E Hb]. split.
  - rewrite <- (rev_involutive s), E, rev_app_distr. simpl.
    rewrite <- app_assoc. reflexivity.
  - rewrite list_elem_of_In, <- in_rev, <- list_elem_of_In. exact Hb.
Qed.

End Split.

(** ** File names *)

(** [absent] proves that a character does not occur in a literal. *)
Ltac absent :=
  cbn [list_ascii_of_string]; rewrite ?not_elem_of_cons;
  repeat split; first [discriminate | apply not_elem_of_nil].

Lemma rfind_from_absent c s i last :
  c ∉ s → PyStr.rfind_from c s i last = last.
Proof.
  revert i last. induction s as [|d r IH]; intros i last H; simpl; [reflexivity|].
  apply not_elem_of_cons in H as [Hd Hr]. rewrite (IH _ _ Hr).
  destruct (Ascii.eqb d c) eqn:E; [|reflexivity].
  apply Ascii.eqb_eq in E. congruence.
Qed.

Lemma rfind_from_last c s t i last :
  c ∉ t → PyStr.rfind_from c (s ++ c :: t) i last = i + Z.of_nat (length s).
Proof.
  revert i last. induction s as [|d r IH]; intros i last H; simpl.
  - rewrite Ascii.eqb_refl, rfind_from_absent by exact H. lia.
  - rewrite IH by exact H. lia.
Qed.

Lemma stem_html_gz x : stem (x ++ «".html.gz"») = x ++ «".html"».
Proof.
  unfold stem. change (x ++ «".html.gz"») with (x ++ «".html"» ++ "." :: «"gz"»).
  rewrite app_assoc. unfold PyStr.rfind.
  rewrite rfind_from_last
    by absent.
  rewrite !length_app. simpl length.
  replace (_ && _) with true
    by (symmetry; apply andb_true_iff; split; apply Z.ltb_lt; lia).
  replace (Z.to_nat _) with (length (x ++ «".html"»)) by (rewrite length_app; simpl; lia).
  apply take_app_length.
Qed.

Lemma endswith_app x suffix : PyStr.endswith suffix (x ++ suffix) = true.
Proof.
  unfold PyStr.endswith. apply bool_decide_eq_true.
  replace (_ - _)%nat with (length x) by (rewrite length_app; lia).
  apply drop_app_length.
Qed.

Lemma clean_html_gz : clean «".html.gz"».
Proof. repeat constructor. Qed.

Lemma clean_app a b : clean a → clean b → clean (a ++ b).
Proof. unfold clean. intros. apply Forall_app. auto. Qed.

Lemma clean_sep a : clean a → clean ("_" :: a).
Proof. unfold clean. intros. constructor; [reflexivity | assumption]. Qed.

(** For sanitized values the sanitization of the whole name changes
    nothing: the name is the seven values joined by '_', plus the suffix. *)
Lemma page_filename_sanitized row :
  sanitized row →
  page_filename row =
    ((state_val row ++ "_" :: district_val row ++ "_" :: block_val row ++ "_" ::
      panchayat_val row ++ "_" :: year_val row ++ "_" :: date_val row)
     ++ "_" :: option_val row) ++ «".html.gz"».
Proof.
  intros (H1 & H2 & H3 & H4 & H5 & H6 & H7). unfold page_filename.
  apply clean_value_fixed_iff in H1, H2, H3, H4, H5, H6, H7.
  rewrite sanitize_id.
  - repeat (rewrite <- app_assoc; simpl). reflexivity.
  - repeat (first [apply clean_app | apply clean_sep | apply clean_html_gz | assumption]).
Qed.

Lemma split6 (a b c d e f : str) :
  "_" ∉ a → "_" ∉ b → "_" ∉ c → "_" ∉ d → "_" ∉ e →
  PyStr.split_max "_" 5 (a ++ "_" :: b ++ "_" :: c ++ "_" :: d ++ "_" :: e ++ "_" :: f)
  = [a; b; c; d; e; f].
Proof.
  intros Ha Hb Hc Hd He. cbn [PyStr.split_max].
  rewrite !cut_app by assumption. reflexivity.
Qed.

Lemma parse_page_filename row :
  sanitized row → delimiter_free row →
  parse_stem (stem (page_filename row)) = ParsedKey (fields_of row).
Proof.
  intros Hs (H1 & H2 & H3 & H4 & H5 & H7).
  rewrite (page_filename_sanitized row Hs).
  rewrite stem_html_gz, <- app_assoc, <- app_comm_cons.
  unfold parse_stem. rewrite rsplit1_app.
  - unfold key_of_base. rewrite split6 by assumption.
    destruct Hs as (E1 & E2 & E3 & E4 & E5 & E6 & _).
    rewrite E1, E2, E3, E4, E5, E6. reflexivity.
  - apply not_elem_of_app. split; [exact H7 | absent].
Qed.

(** ** C1 *)

(** C1, as stated, fails: the sanitized values ("a_b","c","d","e","f","g")
    with option "All" give the name a_b_c_d_e_f_g_All.html.gz, which the
    loader reads as ("a","b","c","d","e","f_g"). *)
Lemma C1_delimiter_in_field_breaks_round_trip :
  sanitized combo_a_b
  ∧ parse_stem (stem (page_filename combo_a_b))
    = ParsedKey («"a"», «"b"», «"c"», «"d"», «"e"», «"f_g"»)
  ∧ parse_stem (stem (page_filename combo_a_b)) ≠ ParsedKey (fields_of combo_a_b).
Proof.
  split; [repeat split|split]; [reflexivity | vm_compute; discriminate].
Qed.

(** C1, amended: for every seven sanitized values of which the first five
    and the option contain no '_', the loader's splitting rule applied to
    the name built by _save_webpage gives back the first six values. *)
Theorem C1_filename_round_trip (row : Combo) :
  sanitized row → delimiter_free row →
  parse_stem (stem (page_filename row)) = ParsedKey (fields_of row).
Proof. apply parse_page_filename. Qed.

Lemma C1_filename_round_trip_witness :
  parse_stem (stem (page_filename combo_meghalaya))
  = ParsedKey (fields_of combo_meghalaya).
Proof.
  apply (C1_filename_round_trip combo_meghalaya).
  - repeat split.
  - unfold delimiter_free, combo_meghalaya; cbn [state_val district_val block_val
      panchayat_val year_val option_val]. repeat split; absent.
Defined.

(** ** The field count test *)

Lemma split_app_sep sep a b :
  PyStr.split sep (a ++ sep :: b) = PyStr.split sep a ++ PyStr.split sep b.
Proof.
  remember (length a) as n eqn:Hn. revert a Hn.
  induction n as [n IH] using lt_wf_ind. intros a Hn.
  destruct (PyStr.cut sep a) as [[a1 a2]|] eqn:E.
  - destruct (cut_Some _ _ _ _ E) as [-> Ha1].
    rewrite <- app_assoc, <- app_comm_cons.
    rewrite (split_app sep a1 (a2 ++ sep :: b) Ha1), (split_app sep a1 a2 Ha1).
    rewrite (IH (length a2)); [reflexivity| |reflexivity].
    rewrite Hn, length_app. simpl. lia.
  - apply cut_None in E. rewrite split_app, (split_no_sep _ _ E) by exact E.
    reflexivity.
Qed.

Lemma key_of_base_six base a b c d e f :
  PyStr.split_max "_" 5 base = [a; b; c; d; e; f] →
  key_of_base base =
    ParsedKey (clean_value a, clean_value b, clean_value c,
               clean_value d, clean_value e, clean_value f).
Proof. unfold key_of_base. intros ->. reflexivity. Qed.

Lemma key_of_base_wrong base got :
  key_of_base base = WrongParts got →
  got = length (PyStr.split_max "_" 5 base) ∧ got ≠ 6%nat.
Proof.
  unfold key_of_base.
  destruct (PyStr.split_max "_" 5 base) as [|a [|b [|c [|d [|e [|f [|g l]]]]]]];
    intros [= <-]; simpl; split; (reflexivity || lia).
Qed.

Lemma key_of_base_parsed base key :
  key_of_base base = ParsedKey key → length (PyStr.split_max "_" 5 base) = 6%nat.
Proof.
  unfold key_of_base.
  destruct (PyStr.split_max "_" 5 base) as [|a [|b [|c [|d [|e [|f [|g l]]]]]]];
    intros [=]; reflexivity.
Qed.

Lemma key_of_base_folds base :
  (6 ≤ length (PyStr.split "_" base))%nat →
  key_of_base base =
    ParsedKey (clean_value (segment 0 base), clean_value (segment 1 base),
               clean_value (segment 2 base), clean_value (segment 3 base),
               clean_value (segment 4 base),
               clean_value (PyStr.join "_" (drop 5 (PyStr.split "_" base)))).
Proof.
  intros H. apply key_of_base_six. rewrite split_max_fold by lia.
  unfold segment.
  destruct (PyStr.split "_" base) as [|a [|b [|c [|d [|e l]]]]];
    simpl in H; try lia. reflexivity.
Qed.

(** C10: [split("_", 5)] never gives more than six parts; the length test
    rejects a base only when it has fewer than six '_'-separated segments;
    a base with six or more segments is accepted, the segments from the
    sixth on being kept, joined by '_', as the date field of the key. *)
Theorem C10_split_limit_folds_surplus (base : str) :
  (length (PyStr.split_max "_" 5 base) ≤ 6)%nat
  ∧ (∀ got, key_of_base base = WrongParts got →
       got = length (PyStr.split "_" base) ∧ (got < 6)%nat)
  ∧ ((6 ≤ length (PyStr.split "_" base))%nat →
       key_of_base base =
         ParsedKey (clean_value (segment 0 base), clean_value (segment 1 base),
                    clean_value (segment 2 base), clean_value (segment 3 base),
                    clean_value (segment 4 base),
                    clean_value
                      (PyStr.join "_" (drop 5 (PyStr.split "_" base)))))
  ∧ (∀ filename option,
       PyStr.rsplit1 "_" filename = inl (base, option) →
       parse_stem filename = key_of_base base).
Proof.
  repeat split.
  - apply split_max_length.
  - apply key_of_base_wrong in H as [-> Hne].
    destruct (decide (length (PyStr.split "_" base) ≤ 6)%nat) as [Hle|Hgt].
    + rewrite split_max_all by exact Hle. reflexivity.
    + rewrite split_max_fold, length_app, length_take in Hne by lia.
      cbn [length] in Hne. lia.
  - apply key_of_base_wrong in H as [-> Hne].
    pose proof (split_max_length "_" 5 base). lia.
  - apply key_of_base_folds.
  - intros filename option H. unfold parse_stem. rewrite H. reflexivity.
Qed.

Lemma C10_split_limit_folds_surplus_witness :
  (6 ≤ length (PyStr.split "_" «"a_b_c_d_e_f_g_h"»))%nat
  ∧ key_of_base «"a_b_c_d_e_f_g_h"»
    = ParsedKey («"a"», «"b"», «"c"», «"d"», «"e"», «"f_g_h"»).
Proof.
  assert (H : (6 ≤ length (PyStr.split "_" «"a_b_c_d_e_f_g_h"»))%nat)
    by (vm_compute; lia).
  split; [exact H|].
  exact (proj1 (proj2 (proj2 (C10_split_limit_folds_surplus _))) H).
Defined.

(** ** The loader *)

Lemma elem_of_load_files files processed key :
  key ∈ foldl load_file processed files ↔
  key ∈ processed
  ∨ ∃ name, name ∈ files ∧ parse_stem (stem name) = ParsedKey key.
Proof.
  revert processed. induction files as [|name files IH]; intros processed; simpl.
  - split; [auto|]. intros [H|(name & H & _)]; [exact H|].
    apply elem_of_nil in H as [].
  - rewrite IH. unfold load_file.
    split.
    + intros [H|(name' & Hin & Hp)].
      * destruct (parse_stem (stem name)) as [key'| |] eqn:E; auto.
        apply elem_of_union in H as [H|H]; [auto|].
        apply elem_of_singleton in H as ->.
        right. exists name. split; [apply list_elem_of_here | exact E].
      * right. exists name'. split; [apply list_elem_of_further, Hin | exact Hp].
    + intros [H|(name' & Hin & Hp)].
      * left. destruct (parse_stem (stem name)); [apply elem_of_union|..]; auto.
      * apply elem_of_cons in Hin as [->|Hin].
        -- left. rewrite Hp. apply elem_of_union. right.
           apply elem_of_singleton. reflexivity.
        -- right. exists name'. auto.
Qed.

Lemma elem_of_load_processed_set names key :
  key ∈ _load_processed_set (Some names) ↔
  ∃ name, name ∈ names ∧ is_html name ∧ parse_stem (stem name) = ParsedKey key.
Proof.
  unfold _load_processed_set, load_directory, glob_suffix, is_html. simpl.
  rewrite elem_of_load_files. split.
  - intros [H|(name & Hin & Hp)]; [apply not_elem_of_empty in H as []|].
    exists name. apply elem_of_app in Hin.
    rewrite !list_elem_of_filter in Hin. intuition.
  - intros (name & Hin & Hhtml & Hp). right. exists name.
    rewrite elem_of_app, !list_elem_of_filter. intuition.
Qed.

Lemma load_missing_directory : _load_processed_set None = ∅.
Proof. reflexivity. Qed.

Lemma too_few_fields_skipped name key :
  too_few_fields name → parse_stem (stem name) ≠ ParsedKey key.
Proof.
  unfold too_few_fields, parse_stem. intros Hfew.
  destruct (PyStr.rsplit1 "_" (stem name)) as [[base option]|] eqn:E;
    [|discriminate].
  apply rsplit1_inl in E as [E Hopt]. rewrite E in Hfew.
  rewrite split_app_sep, length_app, (split_no_sep _ _ Hopt) in Hfew.
  simpl in Hfew. intros Hp. apply key_of_base_parsed in Hp.
  rewrite split_max_all in Hp by lia. lia.
Qed.

Lemma page_filename_is_html row : sanitized row → is_html (page_filename row).
Proof.
  intros Hs. right. rewrite (page_filename_sanitized row Hs).
  apply endswith_app.
Qed.

Lemma key_of_sanitized row : sanitized row → key_of row = fields_of row.
Proof.
  intros (E1 & E2 & E3 & E4 & E5 & E6 & _). unfold key_of, fields_of.
  rewrite E1, E2, E3, E4, E5, E6. reflexivity.
Qed.

Lemma load_one name key :
  is_html name → parse_stem (stem name) = ParsedKey key →
  _load_processed_set (Some [name]) = {[ key ]}.
Proof.
  intros Hhtml Hp. apply set_eq. intros k.
  rewrite elem_of_load_processed_set, elem_of_singleton. split.
  - intros (name' & Hin & _ & Hp'). apply list_elem_of_singleton in Hin as ->.
    congruence.
  - intros ->. exists name. split; [apply list_elem_of_here | auto].
Qed.

(** ** C3 *)

(** C3, as stated, fails: in a directory holding exactly the file saved for
    the key ("a_b","c","d","e","f","g") the loader finds the key
    ("a","b","c","d","e","f_g") instead. *)
Lemma C3_delimiter_in_key_is_misread :
  sanitized combo_a_b
  ∧ _load_processed_set (Some [page_filename combo_a_b])
    = {[ («"a"», «"b"», «"c"», «"d"», «"e"», «"f_g"») ]}
  ∧ _load_processed_set (Some [page_filename combo_a_b]) ≠ {[ key_of combo_a_b ]}.
Proof.
  assert (Hs : sanitized combo_a_b) by (repeat split).
  assert (Hl : _load_processed_set (Some [page_filename combo_a_b])
               = {[ («"a"», «"b"», «"c"», «"d"», «"e"», «"f_g"») ]}).
  { apply load_one; [apply page_filename_is_html, Hs | reflexivity]. }
  split; [exact Hs|]. split; [exact Hl|].
  rewrite Hl. intros H.
  assert (Hin : key_of combo_a_b
                ∈ ({[ key_of combo_a_b ]} : gset Key)) by (apply elem_of_singleton; reflexivity).
  rewrite <- H in Hin. apply elem_of_singleton in Hin. discriminate Hin.
Qed.

(** C3, amended: when the directory holds the files saved for the
    combinations K1..Kn, all sanitized and with no '_' in a field other than
    the date, and besides them only names with fewer than seven
    '_'-separated fields, the loader returns exactly the set of the keys
    K1..Kn; the short names add nothing and raise nothing (the loader is a
    total function); and the file
    Meghalaya_East-Khasi-Hills_Block1_GP1_2020-21_15-01-2021_All.html.gz
    alone gives the key (Meghalaya, East-Khasi-Hills, Block1, GP1, 2020-21,
    15-01-2021). *)
Theorem C3_loader_rebuilds_processed_set
    (combos : list Combo) (names : list str) :
  (∀ row, row ∈ combos → sanitized row ∧ delimiter_free row) →
  (∀ row, row ∈ combos → page_filename row ∈ names) →
  (∀ name, name ∈ names →
     (∃ row, row ∈ combos ∧ name = page_filename row) ∨ too_few_fields name) →
  _load_processed_set (Some names) = list_to_set (key_of <$> combos)
  ∧ _load_processed_set (Some [name_meghalaya]) = {[ key_meghalaya ]}.
Proof.
  intros Hgood Hsaved Honly. split.
  - apply set_eq. intros key.
    rewrite elem_of_load_processed_set, elem_of_list_to_set, list_elem_of_fmap.
    split.
    + intros (name & Hin & _ & Hp).
      destruct (Honly name Hin) as [(row & Hrow & ->)|Hfew].
      * exists row. split; [|exact Hrow].
        destruct (Hgood row Hrow) as [Hs Hd].
        rewrite (parse_page_filename row Hs Hd) in Hp.
        rewrite (key_of_sanitized row Hs). congruence.
      * destruct (too_few_fields_skipped name key Hfew Hp).
    + intros (row & -> & Hrow). destruct (Hgood row Hrow) as [Hs Hd].
      exists (page_filename row).
      split; [exact (Hsaved row Hrow)|].
      split; [exact (page_filename_is_html row Hs)|].
      rewrite (parse_page_filename row Hs Hd), (key_of_sanitized row Hs).
      reflexivity.
  - apply load_one; [right|]; reflexivity.
Qed.

Lemma C3_loader_rebuilds_processed_set_witness :
  _load_processed_set (Some [«"notes.html"»; page_filename combo_meghalaya])
  = list_to_set (key_of <$> [combo_meghalaya])
  ∧ _load_processed_set (Some [name_meghalaya]) = {[ key_meghalaya ]}.
Proof.
  apply (C3_loader_rebuilds_processed_set [combo_meghalaya]).
  - intros row Hrow. apply list_elem_of_singleton in Hrow as ->.
    split; [repeat split|].
    unfold delimiter_free, combo_meghalaya; cbn [state_val district_val block_val
      panchayat_val year_val option_val]. repeat split; absent.
  - intros row Hrow. apply list_elem_of_singleton in Hrow as ->.
    apply list_elem_of_further, list_elem_of_here.
  - intros name Hname. apply elem_of_cons in Hname as [->|Hname].
    + right. unfold too_few_fields. vm_compute. lia.
    + apply list_elem_of_singleton in Hname as ->. left.
      exists combo_meghalaya. split; [apply list_elem_of_here | reflexivity].
Defined.

(** ** Effects of the helpers *)

Section Effects.
Context {World : Type} `{Driver World}.

Lemma quiet_refl (h : Handler World) : quiet h h [].
Proof. unfold quiet. rewrite app_nil_r. auto. Qed.

Lemma quiet_trans (h h' h'' : Handler World) t t' :
  quiet h h' t → quiet h' h'' t' → quiet h h'' (t ++ t').
Proof.
  unfold quiet. intros (-> & <- & <- & <-) (-> & <- & <- & <-).
  rewrite app_assoc. auto.
Qed.

(** [quiet_from Hq] closes [quiet h h' (e1 :: .. :: t)] from
    [Hq : quiet h1 h' t] when [h1] is [h] with [e1 ..] appended. *)
Ltac quiet_from Hq :=
  let Ht := fresh in let Hr := fresh in let Hn := fresh in let Hp := fresh in
  destruct Hq as (Ht & Hr & Hn & Hp); simpl in Ht, Hr, Hn, Hp;
  unfold quiet; split_and!;
  [rewrite Ht, <- ?app_assoc; reflexivity | assumption..].

Lemma selected_later (selected : bool) outcome outcomes :
  outcome ≠ Selected →
  (selected = true ↔ Selected ∈ outcomes) →
  (selected = true ↔ Selected ∈ outcome :: outcomes).
Proof.
  intros Hne ->. rewrite elem_of_cons. split; [auto|].
  intros [Heq|Hin]; [congruence | exact Hin].
Qed.

Lemma select_attempts_spec element_id value max_retries attempts
    (h h' : Handler World) (selected : bool) :
  select_attempts element_id value max_retries attempts h = (selected, h') →
  ∃ t, quiet h h' t
    ∧ (length (select_outcomes t) ≤ length attempts)%nat
    ∧ length (script_clicks t) = transients (select_outcomes t)
    ∧ (selected = true ↔ Selected ∈ select_outcomes t)
    ∧ Forall (λ s, s = Selecting element_id value) (steps t).
Proof.
  revert h h' selected.
  induction attempts as [|attempt rest IH]; intros h h' selected Hrun.
  - injection Hrun as <- <-. exists []. simpl.
    split_and!; try apply quiet_refl; try done.
    split; [discriminate | intros Hin; apply elem_of_nil in Hin as []].
  - cbn [select_attempts] in Hrun. unfold bind, call, log, ret in Hrun.
    destruct (select_by_value element_id value (driver h)) as [[] w].
    + injection Hrun as <- <-.
      exists [Select element_id value Selected]. simpl.
      split_and!; try done; try lia.
      * split; [intros _; apply list_elem_of_here | reflexivity].
      * repeat constructor.
    + simpl in Hrun.
      destruct (script_click element_id w) as [[] w'];
        apply IH in Hrun as (t & Hq & Hlen & Hclicks & Hsel & Hall);
        [eexists (_ :: _ :: _ :: t) | eexists (_ :: _ :: _ :: _ :: t)];
        (split; [quiet_from Hq|]); simpl;
        (split_and!; [lia | lia | | constructor; auto]);
        (apply selected_later; [discriminate | exact Hsel]).
    + simpl in Hrun. destruct (attempt =? max_retries - 1).
      * injection Hrun as <- <-. eexists [_; _].
        split; [unfold quiet; simpl; rewrite <- app_assoc; auto|]. simpl.
        split_and!; try done; try lia.
        -- split; [discriminate|]. intros Hin.
           apply list_elem_of_singleton in Hin. discriminate.
        -- repeat constructor.
      * apply IH in Hrun as (t & Hq & Hlen & Hclicks & Hsel & Hall).
        eexists (_ :: _ :: t). (split; [quiet_from Hq|]); simpl.
        split_and!; [lia | lia | | constructor; auto].
        apply selected_later; [discriminate | exact Hsel].
Qed.

Lemma length_range n : length (range n) = Z.to_nat n.
Proof. unfold range. rewrite length_fmap, length_seq. reflexivity. Qed.

(** With the default of one retry _select_option tries one selection. *)
Lemma select_option_once element_id value (h h' : Handler World) selected :
  _select_option element_id value default_max_retries h = (selected, h') →
  ∃ t outcome, quiet h h' t ∧ steps t = [Selecting element_id value]
       ∧ select_outcomes t = [outcome]
       ∧ (selected = true ↔ outcome = Selected)
       ∧ outcome = (select_by_value element_id value (driver h)).1.
Proof.
  unfold _select_option. change (range default_max_retries) with [0].
  cbn [select_attempts]. unfold bind, call, log, ret. intros Hrun.
  destruct (select_by_value element_id value (driver h)) as [[] w];
    simpl in Hrun.
  - injection Hrun as <- <-. eexists [_], _.
    split; [unfold quiet; simpl; auto | split_and!; done].
  - destruct (script_click element_id w) as [[] w']; injection Hrun as <- <-.
    + eexists [_; _; _], _.
      split; [unfold quiet; simpl; rewrite <- !app_assoc; auto
             | split_and!; done].
    + eexists [_; _; _; _], _.
      split; [unfold quiet; simpl; rewrite <- !app_assoc; auto
             | split_and!; done].
  - injection Hrun as <- <-. eexists [_; _], _.
    split; [unfold quiet; simpl; rewrite <- !app_assoc; auto
           | split_and!; done].
Qed.

Lemma transients_le outcomes : (transients outcomes ≤ length outcomes)%nat.
Proof. induction outcomes as [|[] l IH]; simpl; lia. Qed.

(** C8: _select_option returns a boolean from every state and for every
    max_retries (it is a total function that raises nothing); it tries at
    most max_retries selections, one with the default; each transient
    failure is followed by exactly one scripted click, so there are no more
    clicks than attempts; and when no attempt succeeds the result is
    False. *)
Theorem C8_select_option_bounded element_id value max_retries
    (h : Handler World) :
  ∃ (selected : bool) h' t,
    _select_option element_id value max_retries h = (selected, h')
    ∧ quiet h h' t
    ∧ (length (select_outcomes t) ≤ Z.to_nat max_retries)%nat
    ∧ length (script_clicks t) = transients (select_outcomes t)
    ∧ (length (script_clicks t) ≤ length (select_outcomes t))%nat
    ∧ (selected = true ↔ Selected ∈ select_outcomes t)
    ∧ (Forall (λ outcome, outcome ≠ Selected) (select_outcomes t) →
       selected = false)
    ∧ (max_retries = default_max_retries →
       (length (select_outcomes t) ≤ 1)%nat
       ∧ (length (script_clicks t) ≤ 1)%nat).
Proof.
  destruct (_select_option element_id value max_retries h)
    as [selected h'] eqn:Hrun.
  exists selected, h'. unfold _select_option in Hrun.
  apply select_attempts_spec in Hrun
    as (t & Hq & Hlen & Hclicks & Hsel & _).
  rewrite length_range in Hlen.
  pose proof (transients_le (select_outcomes t)) as Hle.
  exists t. split_and!; try done; try lia.
  - intros Hall. destruct selected; [|reflexivity].
    apply proj1 in Hsel. specialize (Hsel eq_refl).
    rewrite Forall_forall in Hall. destruct (Hall _ Hsel eq_refl).
  - intros ->. change (Z.to_nat default_max_retries) with 1%nat in Hlen. lia.
Qed.

End Effects.

(** ** Dictionaries and _get_options_dict *)

Lemma elem_of_dict_set_keys key value (d : dict) x :
  x ∈ (dict_set key value d).*1 ↔ x = key ∨ x ∈ d.*1.
Proof.
  induction d as [|[k v] rest IH]; simpl.
  - rewrite list_elem_of_singleton, elem_of_nil. tauto.
  - unfold PyStr.eqb. case_bool_decide as Hk; simpl.
    + subst k. rewrite !elem_of_cons. tauto.
    + rewrite !elem_of_cons, IH. tauto.
Qed.

Lemma NoDup_dict_set key value (d : dict) :
  NoDup d.*1 → NoDup (dict_set key value d).*1.
Proof.
  induction d as [|[k v] rest IH]; simpl; intros Hd.
  - apply NoDup_singleton.
  - unfold PyStr.eqb. case_bool_decide as Hk; simpl; [exact Hd|].
    apply NoDup_cons in Hd as [Hk' Hrest]. apply NoDup_cons. split.
    + rewrite elem_of_dict_set_keys. intros [->|Hin]; [congruence | auto].
    + exact (IH Hrest).
Qed.

Lemma dict_set_nonempty key value (d : dict) : dict_set key value d ≠ [].
Proof.
  destruct d as [|[k v] rest]; simpl; [discriminate|].
  destruct (PyStr.eqb k key); discriminate.
Qed.

Lemma elem_of_dict_set key value (d : dict) k v :
  (k, v) ∈ dict_set key value d → (k = key ∧ v = value) ∨ (k, v) ∈ d.
Proof.
  induction d as [|[k' v'] rest IH]; simpl.
  - rewrite list_elem_of_singleton. intros [= -> ->]. auto.
  - unfold PyStr.eqb. case_bool_decide as Hk; rewrite !elem_of_cons.
    + intros [[= -> ->]|Hin]; auto.
    + intros [Heq|Hin]; [auto|]. destruct (IH Hin); auto.
Qed.

Lemma collect_keys options (acc : dict) x :
  x ∈ (foldl (collect_option true) acc options).*1 ↔
  x ∈ acc.*1
  ∨ ∃ option, option ∈ options ∧ kept option
              ∧ PyStr.strip (value_attr option) = x.
Proof.
  revert acc. induction options as [|o options IH]; intros acc; simpl.
  - split; [auto|]. intros [Hin|(o & Hin & _)]; [exact Hin|].
    apply elem_of_nil in Hin as [].
  - rewrite IH. unfold collect_option, kept. simpl.
    destruct (is_default (PyStr.strip (value_attr o))) eqn:Ho.
    + split.
      * intros [Hin|(o' & Hin & Hk & Hv)]; [auto|].
        right. exists o'. rewrite elem_of_cons. auto.
      * intros [Hin|(o' & Hin & Hk & Hv)]; [auto|].
        apply elem_of_cons in Hin as [->|Hin]; [congruence|].
        right. exists o'. auto.
    + rewrite elem_of_dict_set_keys. split.
      * intros [[->|Hin]|(o' & Hin & Hk & Hv)]; [|auto|].
        -- right. exists o. rewrite elem_of_cons. auto.
        -- right. exists o'. rewrite elem_of_cons. auto.
      * intros [Hin|(o' & Hin & Hk & Hv)]; [auto|].
        apply elem_of_cons in Hin as [->|Hin]; [auto|].
        right. exists o'. auto.
Qed.

Lemma collect_NoDup options (acc : dict) :
  NoDup acc.*1 → NoDup (foldl (collect_option true) acc options).*1.
Proof.
  revert acc. induction options as [|o options IH]; intros acc Hacc; simpl;
    [exact Hacc|].
  apply IH. unfold collect_option. simpl.
  destruct (is_default _); [exact Hacc | apply NoDup_dict_set, Hacc].
Qed.

Lemma collect_entries options (acc : dict) k v :
  (k, v) ∈ foldl (collect_option true) acc options →
  (k, v) ∈ acc
  ∨ ∃ option, option ∈ options ∧ kept option
              ∧ PyStr.strip (value_attr option) = k
              ∧ PyStr.strip (text option) = v.
Proof.
  revert acc. induction options as [|o options IH]; intros acc; simpl; [auto|].
  intros Hin. apply IH in Hin as [Hin|(o' & Hin & Hk)].
  - unfold collect_option in Hin. simpl in Hin.
    destruct (is_default (PyStr.strip (value_attr o))) eqn:Ho; [auto|].
    apply elem_of_dict_set in Hin as [[-> ->]|Hin]; [|auto].
    right. exists o. rewrite elem_of_cons. unfold kept. auto.
  - right. exists o'. rewrite elem_of_cons. auto.
Qed.

Lemma collect_empty options (acc : dict) :
  foldl (collect_option true) acc options = [] ↔
  acc = [] ∧ Forall (λ option, ¬ kept option) options.
Proof.
  revert acc. induction options as [|o options IH]; intros acc; simpl.
  - split; [auto | tauto].
  - rewrite IH, Forall_cons. unfold collect_option, kept. simpl.
    destruct (is_default (PyStr.strip (value_attr o))) eqn:Ho.
    + split; [intros [-> Hall]|intros (-> & _ & Hall)]; split_and!;
        auto; congruence.
    + split.
      * intros [Hne _]. destruct (dict_set_nonempty _ _ _ Hne).
      * intros (_ & Hk & _). destruct Hk. reflexivity.
Qed.

Lemma lower_is_zero (s : str) : PyStr.lower s = «"0"» ↔ s = «"0"».
Proof.
  split; [|intros ->; reflexivity].
  destruct s as [|c [|d s]]; simpl; try discriminate.
  intros [= Hc]. f_equal. revert Hc.
  destruct c as [[] [] [] [] [] [] [] []]; vm_compute; congruence.
Qed.

Lemma is_default_iff (value : str) :
  is_default value = true ↔
  value = [] ∨ PyStr.lower value = «"select"»
  ∨ PyStr.lower value = «"choose"» ∨ value = «"0"».
Proof.
  unfold is_default, PyStr.in_list, PyStr.eqb. cbn [existsb].
  rewrite orb_false_r, !orb_true_iff, !bool_decide_eq_true, lower_is_zero.
  split.
  - intros [Hv|[Hv|[Hv|[Hv|Hv]]]]; auto.
    + destruct value; [auto | discriminate].
    + destruct value; [auto | discriminate].
  - intros [->|[Hv|[Hv|Hv]]]; auto.
Qed.

(** ** C9 *)

(** C9, as stated, fails: an option labelled "Select" with the value "x"
    is a placeholder in the words of the claim and is kept, and an option
    labelled "Shillong" with the value "Choose" is none and is left out. *)
Lemma C9_label_is_not_tested :
  spec_placeholder {| text := «"Select"»; value_attr := «"x"» |} = true
  ∧ spec_placeholder {| text := «"Shillong"»; value_attr := «"Choose"» |}
    = false
  ∧ (_get_options_dict (form_elements State) true default_max_wait
       (init (session labelled_site) (Some []))).1
    = inl [(«"x"», «"Select"»)].
Proof. split_and!; reflexivity. Qed.

Section Options.
Context {World : Type} `{Driver World}.

(** C9, amended: with exclude_default on, _get_options_dict leaves out
    exactly the options whose stripped value is empty or, lower-cased, is
    "select" or "choose", or is "0" (the test reads the value, not the
    label); when the driver delivers the option elements it raises if and
    only if nothing is left after this filtering, and otherwise returns the
    mapping from the kept values to their labels; an error of the driver
    is raised again. *)
Theorem C9_placeholders_filtered_by_value element max_wait
    (h : Handler World) :
  let found := (find_options element max_wait (driver h)).1 in
  let result := (_get_options_dict element true max_wait h).1 in
  (∀ option, kept option ↔
     ¬ (PyStr.strip (value_attr option) = []
        ∨ PyStr.lower (PyStr.strip (value_attr option)) = «"select"»
        ∨ PyStr.lower (PyStr.strip (value_attr option)) = «"choose"»
        ∨ PyStr.strip (value_attr option) = «"0"»))
  ∧ match found with
    | None => result = inr DriverError
    | Some options =>
        (result = inr (NoOptionsFound element)
         ↔ Forall (λ option, ¬ kept option) options)
        ∧ (∀ e, result = inr e → e = NoOptionsFound element)
        ∧ (∀ d : dict, result = inl d →
             d ≠ [] ∧ NoDup d.*1
             ∧ (∀ value, value ∈ d.*1 ↔
                  ∃ option, option ∈ options ∧ kept option
                            ∧ PyStr.strip (value_attr option) = value)
             ∧ (∀ value label, (value, label) ∈ d →
                  ∃ option, option ∈ options ∧ kept option
                            ∧ PyStr.strip (value_attr option) = value
                            ∧ PyStr.strip (text option) = label))
    end.
Proof.
  intros found result. split.
  - intros option. unfold kept. rewrite <- is_default_iff.
    destruct (is_default _); split; congruence.
  - subst found result. unfold _get_options_dict, bind, call.
    destruct (find_options element max_wait (driver h)) as [[options|] w];
      simpl; [|reflexivity].
    unfold options_dict_of.
    destruct (foldl (collect_option true) [] options) as [|item d] eqn:E;
      simpl.
    + apply collect_empty in E as [_ Hall]. split_and!.
      * split; auto.
      * intros e [= <-]. reflexivity.
      * discriminate.
    + split_and!.
      * split; [discriminate|]. intros Hall.
        assert (Hempty : foldl (collect_option true) [] options = [])
          by (apply collect_empty; auto).
        congruence.
      * discriminate.
      * intros d' [= <-]. rewrite <- E. split_and!.
        -- rewrite E. discriminate.
        -- apply collect_NoDup. constructor.
        -- intros value. rewrite collect_keys. simpl.
           rewrite elem_of_nil. tauto.
        -- intros value label Hin. apply collect_entries in Hin as [Hin|Hin];
             [apply elem_of_nil in Hin as [] | exact Hin].
Qed.

End Options.

(** ** One combination *)

Lemma steps_app t t' : steps (t ++ t') = steps t ++ steps t'.
Proof.
  induction t as [|[] t IH]; simpl; rewrite ?IH; reflexivity.
Qed.

Lemma select_outcomes_app t t' :
  select_outcomes (t ++ t') = select_outcomes t ++ select_outcomes t'.
Proof.
  induction t as [|[] t IH]; simpl; rewrite ?IH; reflexivity.
Qed.

Lemma saved_app s s' : saved (s ++ s') = saved s ++ saved s'.
Proof.
  induction s as [|[] s IH]; simpl; rewrite ?IH; reflexivity.
Qed.

Lemma saves_app t t' : saves (t ++ t') = saves t ++ saves t'.
Proof. unfold saves. rewrite steps_app. apply saved_app. Qed.

Section Runs.
Context {World : Type} `{Driver World}.

Lemma bind_run {A B} (m : M World A) (k : A → M World B) h b h'' :
  bind m k h = (b, h'') → ∃ a h', m h = (a, h') ∧ k a h' = (b, h'').
Proof. unfold bind. destruct (m h) as [a h']. eauto. Qed.

Lemma ret_run {A} (a b : A) (h h' : Handler World) :
  ret a h = (b, h') → b = a ∧ h' = h.
Proof. intros [= <- <-]. auto. Qed.

Lemma log_run level format args (h h' : Handler World) u :
  log level format args h = (u, h') → quiet h h' [Log level format args].
Proof. intros [= _ <-]. unfold quiet. simpl. auto. Qed.

Lemma call_run {A} (op : World → A * World) effect (h h' : Handler World) a :
  call op effect h = (a, h') →
  quiet h h' [effect a] ∧ a = (op (driver h)).1.
Proof.
  unfold call. destruct (op (driver h)) as [a' w]. intros [= <- <-].
  unfold quiet. simpl. auto.
Qed.

Lemma get_run {A} (attribute : Handler World → A) h h' a :
  get attribute h = (a, h') → a = attribute h ∧ h' = h.
Proof. intros [= <- <-]. auto. Qed.

Lemma reselect_run row (h h' : Handler World) u :
  reselect row h = (u, h') → ∃ t, quiet h h' t ∧ steps t = ancestors row.
Proof.
  unfold reselect. intros Hrun.
  apply bind_run in Hrun as (? & h1 & H1 & Hrun).
  apply bind_run in Hrun as (? & h2 & H2 & Hrun).
  apply bind_run in Hrun as (? & h3 & H3 & Hrun).
  apply bind_run in Hrun as (? & h4 & H4 & Hrun).
  apply bind_run in Hrun as (? & h5 & H5 & Hrun).
  apply bind_run in Hrun as (? & h6 & H6 & Hrun).
  apply ret_run in Hrun as [_ ->].
  apply select_option_once in H1 as (t1 & ? & Q1 & S1 & _).
  apply select_option_once in H2 as (t2 & ? & Q2 & S2 & _).
  apply select_option_once in H3 as (t3 & ? & Q3 & S3 & _).
  apply select_option_once in H4 as (t4 & ? & Q4 & S4 & _).
  apply select_option_once in H5 as (t5 & ? & Q5 & S5 & _).
  apply select_option_once in H6 as (t6 & ? & Q6 & S6 & _).
  exists (t1 ++ t2 ++ t3 ++ t4 ++ t5 ++ t6). split.
  - repeat (eapply quiet_trans; [eassumption|]). assumption.
  - rewrite !steps_app, S1, S2, S3, S4, S5, S6. reflexivity.
Qed.

(** The loop around the selection of the option, with max_attempts = 1:
    one selection; after a failure the refresh and the six selections of
    the ancestors, and then the loop ends. *)
Lemma select_final_option_run row (h h' : Handler World) success :
  select_final_option (Z.to_nat max_attempts) 0 row h = (success, h') →
  ∃ t outcome, quiet h h' t
    ∧ select_outcomes t !! 0%nat = Some outcome
    ∧ outcome = (select_by_value (form_elements Option) (option_val row)
                   (driver h)).1
    ∧ match success with
      | Some true =>
          outcome = Selected
          ∧ steps t = [Selecting (form_elements Option) (option_val row)]
      | Some false =>
          outcome ≠ Selected
          ∧ steps t = Selecting (form_elements Option) (option_val row)
                      :: Refreshing :: ancestors row
      | None =>
          outcome ≠ Selected
          ∧ steps t = [Selecting (form_elements Option) (option_val row);
                       Refreshing]
      end.
Proof.
  change (Z.to_nat max_attempts) with 1%nat. cbn [select_final_option].
  intros Hrun. apply bind_run in Hrun as (selected & h1 & H1 & Hrun).
  apply select_option_once in H1
    as (t1 & outcome & Q1 & S1 & O1 & Hsel & Hfrom).
  destruct selected.
  - apply ret_run in Hrun as [-> ->]. exists t1, outcome.
    rewrite O1. split_and!; auto. apply Hsel. reflexivity.
  - assert (Hne : outcome ≠ Selected).
    { intros Ho. apply Hsel in Ho. discriminate. }
    apply bind_run in Hrun as (? & h2 & H2 & Hrun). apply log_run in H2.
    apply bind_run in Hrun as (refreshed & h3 & H3 & Hrun).
    apply call_run in H3 as [Q3 _]. destruct refreshed.
    + apply bind_run in Hrun as (? & h4 & H4 & Hrun).
      apply reselect_run in H4 as (t4 & Q4 & S4).
      apply ret_run in Hrun as [-> ->].
      eexists (t1 ++ _ ++ _ ++ t4), outcome. split_and!; auto.
      * eapply quiet_trans; [exact Q1|].
        eapply quiet_trans; [exact H2|].
        eapply quiet_trans; [exact Q3 | exact Q4].
      * rewrite select_outcomes_app, O1. reflexivity.
      * rewrite !steps_app, S1, S4. reflexivity.
    + apply ret_run in Hrun as [-> ->].
      eexists (t1 ++ _ ++ _), outcome. split_and!; auto.
      * eapply quiet_trans; [exact Q1|].
        eapply quiet_trans; [exact H2 | exact Q3].
      * rewrite select_outcomes_app, O1. reflexivity.
      * rewrite !steps_app, S1. reflexivity.
Qed.

End Runs.

Section Combination.
Context {World : Type} `{Driver World}.

Lemma save_webpage_run row (h h' : Handler World) file :
  _save_webpage row h = (file, h') →
  ∃ t, quiet h h' t ∧ steps t = [Saving (page_path row)]
       ∧ select_outcomes t = [].
Proof.
  unfold _save_webpage. intros Hrun.
  apply bind_run in Hrun as (written & h1 & H1 & Hrun).
  apply call_run in H1 as [Q1 _]. destruct written.
  - apply ret_run in Hrun as [_ ->]. eexists. split; [exact Q1|]. done.
  - apply bind_run in Hrun as (? & h2 & H2 & Hrun). apply log_run in H2.
    apply ret_run in Hrun as [_ ->]. eexists (_ ++ _).
    split; [exact (quiet_trans _ _ _ _ _ Q1 H2)|]. done.
Qed.

Lemma visit_combination_run state district block panchayat year date
    option_dict (h h' : Handler World) flow :
  visit_combination state district block panchayat year date option_dict h
  = (flow, h') →
  match choose_option option_dict with
  | None =>
      flow = Next
      ∧ quiet h h'
          [Log WARNING
             «"No option found for the 'option' dropdown; skipping combination."»
             []]
  | Some (value, label) =>
      let row := {| state_val := state.1; district_val := district.1;
                    block_val := block.1; panchayat_val := panchayat.1;
                    year_val := year.1; date_val := date.1;
                    option_val := value |} in
      if decide (key_of row ∈ processed_set h) then
        flow = Next
        ∧ quiet h h'
            [Log INFO «"Combination already processed, skipping: %s"»
               [AKey (key_of row)]]
      else
        ∃ t outcome,
          trace h' = trace h ++ t
          ∧ select_outcomes t !! 0%nat = Some outcome
          ∧ outcome = (select_by_value (form_elements Option) value
                         (driver h)).1
          ∧ match flow with
            | Stop =>
                outcome = Selected
                ∧ steps t = [Selecting (form_elements Option) value;
                             Saving (page_path row)]
                ∧ ∃ r, row_vals r = row ∧ option_label r = label
                       ∧ results h' = results h ++ [r]
                       ∧ total_processed h' = total_processed h + 1
                       ∧ processed_set h' = processed_set h ∪ {[ key_of row ]}
            | Next =>
                outcome ≠ Selected
                ∧ steps t = Selecting (form_elements Option) value
                            :: Refreshing :: ancestors row
                ∧ quiet h h' t
                ∧ last t
                  = Some (Log ERROR
                      «"Maximum attempts reached for combination %s. Skipping."»
                      [AKey (key_of row)])
            | Raised =>
                outcome ≠ Selected
                ∧ steps t = [Selecting (form_elements Option) value;
                             Refreshing]
                ∧ quiet h h' t
            end
  end.
Proof.
  unfold visit_combination.
  destruct (choose_option option_dict) as [[value label]|]; intros Hrun.
  - apply bind_run in Hrun as (processed & h0 & H0 & Hrun).
    apply get_run in H0 as [-> ->]. cbv zeta.
    destruct (decide (_ ∈ processed_set h)) as [Hin|Hnot].
    + apply bind_run in Hrun as (? & h1 & H1 & Hrun). apply log_run in H1.
      apply ret_run in Hrun as [-> ->]. auto.
    + apply bind_run in Hrun as (success & h1 & H1 & Hrun).
      apply select_final_option_run in H1
        as (t1 & outcome & Q1 & O1 & Hfrom & Hs).
      destruct success as [[]|].
      * destruct Hs as [-> S1].
        apply bind_run in Hrun as (file & h2 & H2 & Hrun).
        apply save_webpage_run in H2 as (t2 & Q2 & S2 & O2).
        pose proof (quiet_trans _ _ _ _ _ Q1 Q2) as (Ht & Hr & Hn & Hp).
        unfold bind, read_clock, append_result, count_processed,
          add_processed, get, log, ret in Hrun.
        destruct (now (driver h2)) as [time w]. injection Hrun as <- <-.
        eexists ((t1 ++ t2) ++ [_]), Selected. simpl. split_and!.
        -- rewrite Ht, <- !app_assoc. reflexivity.
        -- rewrite !select_outcomes_app.
           destruct (select_outcomes t1); [discriminate | exact O1].
        -- exact Hfrom.
        -- reflexivity.
        -- rewrite !steps_app, S1, S2. reflexivity.
        -- eexists (Build_Row _ _ _ _ _ _ _ _ _ _).
           split_and!; [reflexivity | reflexivity | ..]; simpl.
           ++ rewrite Hr. reflexivity.
           ++ rewrite Hn. reflexivity.
           ++ rewrite Hp. reflexivity.
      * destruct Hs as [Hne S1].
        apply bind_run in Hrun as (? & h2 & H2 & Hrun). apply log_run in H2.
        apply ret_run in Hrun as [-> ->].
        pose proof (quiet_trans _ _ _ _ _ Q1 H2) as Q.
        eexists (t1 ++ [_]), outcome. split_and!.
        -- apply Q.
        -- rewrite select_outcomes_app.
           destruct (select_outcomes t1); [discriminate | exact O1].
        -- exact Hfrom.
        -- exact Hne.
        -- rewrite steps_app, S1, app_nil_r. reflexivity.
        -- exact Q.
        -- apply last_snoc.
      * destruct Hs as [Hne S1]. apply ret_run in Hrun as [-> ->].
        exists t1, outcome. split_and!; auto. apply Q1.
  - apply bind_run in Hrun as (? & h1 & H1 & Hrun). apply log_run in H1.
    apply ret_run in Hrun as [-> ->]. auto.
Qed.

End Combination.

(** ** C6 *)

Lemma find_all_None (d : dict) :
  find_all d = None ↔ Forall (λ item, ¬ is_all item) d.
Proof.
  induction d as [|[k v] d IH]; simpl.
  - split; [constructor | reflexivity].
  - rewrite Forall_cons. unfold PyStr.eqb, is_all at 1. simpl.
    case_bool_decide as Hv.
    + split; [discriminate | intros [Hn _]; destruct (Hn Hv)].
    + rewrite IH. tauto.
Qed.

Lemma find_all_Some (d : dict) item :
  find_all d = Some item ↔
  ∃ before after, d = before ++ item :: after ∧ is_all item
                  ∧ Forall (λ i, ¬ is_all i) before.
Proof.
  induction d as [|[k v] d IH]; simpl.
  - split; [discriminate|]. intros (before & after & Hd & _).
    destruct before; discriminate.
  - unfold PyStr.eqb. case_bool_decide as Hv.
    + split.
      * intros [= <-]. exists [], d. split_and!; [reflexivity | exact Hv|].
        constructor.
      * intros ([|first before] & after & Hd & Hall & Hbefore).
        -- injection Hd as <- _. reflexivity.
        -- injection Hd as <- _. apply Forall_cons in Hbefore as [Hn _].
           destruct (Hn Hv).
    + rewrite IH. split.
      * intros (before & after & -> & Hall & Hbefore).
        exists ((k, v) :: before), after. split_and!; auto.
      * intros ([|first before] & after & Hd & Hall & Hbefore).
        -- injection Hd as <- _. destruct (Hv Hall).
        -- injection Hd as _ ->. apply Forall_cons in Hbefore as [_ Hb].
           exists before, after. auto.
Qed.

Section Choice.
Context {World : Type} `{Driver World}.

(** C6: the driver chooses the first item whose label, lower-cased, is
    "all"; without such an item it chooses the first item; an empty mapping
    gives no choice, and the combination is skipped with a warning; the
    chosen value is the one selected in the option dropdown; {1: All,
    2: Some} gives "1" and {2: Partial} gives "2". *)
Theorem C6_option_choice (option_dict : dict) :
  (∀ item, choose_option option_dict = Some item ↔
     (∃ before after, option_dict = before ++ item :: after ∧ is_all item
                      ∧ Forall (λ i, ¬ is_all i) before)
     ∨ (Forall (λ i, ¬ is_all i) option_dict ∧ head option_dict = Some item))
  ∧ (choose_option option_dict = None ↔ option_dict = [])
  ∧ (∀ state district block panchayat year date (h : Handler World),
       option_dict = [] →
       let run :=
         visit_combination state district block panchayat year date
           option_dict h in
       run.1 = Next
       ∧ quiet h run.2
           [Log WARNING
              «"No option found for the 'option' dropdown; skipping combination."»
              []])
  ∧ (∀ state district block panchayat year date (h : Handler World)
       value label,
       choose_option option_dict = Some (value, label) →
       key_of {| state_val := state.1; district_val := district.1;
                 block_val := block.1; panchayat_val := panchayat.1;
                 year_val := year.1; date_val := date.1;
                 option_val := value |} ∉ processed_set h →
       let run :=
         visit_combination state district block panchayat year date
           option_dict h in
       ∃ t, trace run.2 = trace h ++ t
            ∧ head (steps t)
              = Some (Selecting (form_elements Option) value))
  ∧ choose_option [(«"1"», «"All"»); («"2"», «"Some"»)]
    = Some («"1"», «"All"»)
  ∧ choose_option [(«"2"», «"Partial"»)] = Some («"2"», «"Partial"»).
Proof.
  split_and!; [| | | |reflexivity|reflexivity].
  - intros item. unfold choose_option.
    destruct (find_all option_dict) as [found|] eqn:E.
    + split.
      * intros [= <-]. left. apply find_all_Some, E.
      * intros [Hfirst|[Hnone _]].
        -- apply find_all_Some in Hfirst. congruence.
        -- apply find_all_None in Hnone. congruence.
    + apply find_all_None in E. split.
      * intros Hchoice. right. split; [exact E|].
        destruct option_dict; [discriminate | exact Hchoice].
      * intros [(before & after & -> & Hall & _)|[_ Hhead]].
        -- apply Forall_app in E as [_ E]. apply Forall_cons in E as [E _].
           destruct (E Hall).
        -- destruct option_dict; [discriminate | exact Hhead].
  - unfold choose_option. destruct option_dict as [|item d].
    + split; reflexivity.
    + destruct (find_all (item :: d)); split; discriminate.
  - intros state district block panchayat year date h -> run.
    destruct run as [flow h'] eqn:Hrun. subst run.
    apply visit_combination_run in Hrun. exact Hrun.
  - intros state district block panchayat year date h value label
      Hchoice Hnot run.
    destruct run as [flow h'] eqn:Hrun. subst run.
    apply visit_combination_run in Hrun. rewrite Hchoice in Hrun.
    cbv zeta in Hrun. rewrite decide_False in Hrun by exact Hnot.
    destruct Hrun as (t & outcome & Ht & _ & _ & Hflow). exists t.
    split; [exact Ht|].
    destruct flow; destruct Hflow as (_ & -> & _); reflexivity.
Qed.

End Choice.

(** ** C2 *)

Lemma after_refresh_select element_id value rest :
  after_refresh (Selecting element_id value :: Refreshing :: rest) = rest.
Proof. reflexivity. Qed.

Lemma option_not_ancestor row value :
  Selecting (form_elements Option) value ∉ ancestors row.
Proof.
  unfold ancestors. rewrite !not_elem_of_cons.
  split_and!; try discriminate. apply not_elem_of_nil.
Qed.

(** C2, as stated, fails: on a form where selecting in the option dropdown
    fails, the driver selects the option once, refreshes, selects the six
    ancestors again and leaves the combination; no second selection of the
    option follows the refresh. *)
Lemma C2_no_second_option_selection :
  let run :=
    visit_combination demo_state demo_district demo_block demo_panchayat
      demo_year demo_date demo_option_dict
      (init (session stuck_site) (Some [])) in
  run.1 = Next
  ∧ steps (trace run.2)
    = Selecting (form_elements Option) «"1"» :: Refreshing
      :: ancestors (demo_combo «"15-01-2021"»)
  ∧ Selecting (form_elements Option) «"1"» ∉ after_refresh (steps (trace run.2)).
Proof.
  assert (Hsteps :
    steps (trace (visit_combination demo_state demo_district demo_block
                    demo_panchayat demo_year demo_date demo_option_dict
                    (init (session stuck_site) (Some []))).2)
    = Selecting (form_elements Option) «"1"» :: Refreshing
      :: ancestors (demo_combo «"15-01-2021"»)) by (vm_compute; reflexivity).
  cbv zeta. split_and!.
  - vm_compute. reflexivity.
  - exact Hsteps.
  - rewrite Hsteps, after_refresh_select. apply option_not_ancestor.
Qed.

Section Retry.
Context {World : Type} `{Driver World}.

(** C2, amended: when selecting the final option value fails, the driver
    refreshes the page, re-applies the six ancestor selections (state,
    district, block, panchayat, year, date) and gives the combination up;
    max_attempts is 1, so the option is selected once and no selection of
    it follows the refresh; nothing is saved and nothing is recorded. When
    the refresh itself raises, the exception leaves the traversal. *)
Theorem C2_option_selected_once state district block panchayat year date
    option_dict value label (h : Handler World) :
  let row := {| state_val := state.1; district_val := district.1;
                block_val := block.1; panchayat_val := panchayat.1;
                year_val := year.1; date_val := date.1;
                option_val := value |} in
  let run :=
    visit_combination state district block panchayat year date
      option_dict h in
  choose_option option_dict = Some (value, label) →
  key_of row ∉ processed_set h →
  (select_by_value (form_elements Option) value (driver h)).1 ≠ Selected →
  ∃ t, quiet h run.2 t
    ∧ ((run.1 = Next
        ∧ steps t = Selecting (form_elements Option) value :: Refreshing
                    :: ancestors row
        ∧ last t
          = Some (Log ERROR
              «"Maximum attempts reached for combination %s. Skipping."»
              [AKey (key_of row)]))
       ∨ (run.1 = Raised
          ∧ steps t = [Selecting (form_elements Option) value; Refreshing]))
    ∧ (Selecting (form_elements Option) value ∉ after_refresh (steps t))
    ∧ saves t = [].
Proof.
  intros row run Hchoice Hnot Hfail.
  destruct run as [flow h'] eqn:Hrun. subst run.
  apply visit_combination_run in Hrun. rewrite Hchoice in Hrun.
  cbv zeta in Hrun. rewrite decide_False in Hrun by exact Hnot.
  destruct Hrun as (t & outcome & Ht & _ & Hfrom & Hflow). subst outcome.
  exists t. simpl. destruct flow.
  - destruct Hflow as (_ & Hsteps & Hq & Hlast). split_and!.
    + exact Hq.
    + left. auto.
    + rewrite Hsteps, after_refresh_select. apply option_not_ancestor.
    + unfold saves. rewrite Hsteps. reflexivity.
  - destruct Hflow as [Hsel _]. destruct (Hfail Hsel).
  - destruct Hflow as (_ & Hsteps & Hq). split_and!.
    + exact Hq.
    + right. auto.
    + rewrite Hsteps. simpl. apply not_elem_of_nil.
    + unfold saves. rewrite Hsteps. reflexivity.
Qed.

End Retry.

Lemma C2_option_selected_once_witness :
  let h := init (session stuck_site) (Some []) in
  let run :=
    visit_combination demo_state demo_district demo_block demo_panchayat
      demo_year demo_date demo_option_dict h in
  ∃ t, quiet h run.2 t
    ∧ ((run.1 = Next
        ∧ steps t = Selecting (form_elements Option) «"1"» :: Refreshing
                    :: ancestors (demo_combo «"15-01-2021"»)
        ∧ last t
          = Some (Log ERROR
              «"Maximum attempts reached for combination %s. Skipping."»
              [AKey (key_of (demo_combo «"15-01-2021"»))]))
       ∨ (run.1 = Raised
          ∧ steps t = [Selecting (form_elements Option) «"1"»; Refreshing]))
    ∧ (Selecting (form_elements Option) «"1"» ∉ after_refresh (steps t))
    ∧ saves t = [].
Proof.
  apply (C2_option_selected_once demo_state demo_district demo_block
           demo_panchayat demo_year demo_date demo_option_dict
           «"1"» «"All"» (init (session stuck_site) (Some []))).
  - reflexivity.
  - apply not_elem_of_empty.
  - vm_compute. discriminate.
Defined.

(** ** C7 *)

Lemma for_items_stop {World A} (body : A → M World Flow) item rest
    (h h' : Handler World) :
  body item h = (Stop, h') → for_items body (item :: rest) h = (Next, h').
Proof. intros Hbody. cbn [for_items]. unfold bind. rewrite Hbody. reflexivity. Qed.

(** C7 fails on the code: on a form with the dates 15-01-2021 and
    20-02-2021 under one year, where every selection and the save go
    through, iterate_form saves and records the first date and returns;
    the second date is never selected. *)
Lemma C7_break_skips_remaining_dates :
  let run := iterate_form (init (session demo_site) (Some [])) in
  run.1 = Next
  ∧ (λ row, date_val (row_vals row)) <$> results run.2 = [«"15-01-2021"»]
  ∧ saves (trace run.2) = [page_path (demo_combo «"15-01-2021"»)]
  ∧ elements (processed_set run.2) = [key_of (demo_combo «"15-01-2021"»)]
  ∧ total_processed run.2 = 1
  ∧ (Selecting (form_elements Date) «"20-02-2021"» ∉ steps (trace run.2)).
Proof.
  cbv zeta. split_and!; try (vm_compute; reflexivity).
  refine (bool_decide_unpack _ _). vm_compute. exact I.
Qed.

(** ** The traversal *)

Section Traversal.
Context {World : Type} `{Driver World}.

Lemma grows_quiet (h h' : Handler World) t :
  quiet h h' t → saves t = [] → grows h h' t [].
Proof.
  intros (Ht & Hr & Hn & Hp) Hs. unfold grows. simpl.
  rewrite app_nil_r, Z.add_0_r, union_empty_r_L.
  split_and!; auto; constructor.
Qed.

Lemma grows_trans (h h1 h2 : Handler World) t1 t2 rows1 rows2 :
  grows h h1 t1 rows1 → grows h1 h2 t2 rows2 →
  grows h h2 (t1 ++ t2) (rows1 ++ rows2).
Proof.
  intros (Ht1 & Hr1 & Hn1 & Hp1 & Hs1 & Hf1 & Hd1 & Hv1)
         (Ht2 & Hr2 & Hn2 & Hp2 & Hs2 & Hf2 & Hd2 & Hv2).
  unfold grows. split_and!.
  - rewrite Ht2, Ht1, app_assoc. reflexivity.
  - rewrite Hr2, Hr1, app_assoc. reflexivity.
  - rewrite Hn2, Hn1, length_app. lia.
  - rewrite Hp2, Hp1, fmap_app, list_to_set_app_L, assoc_L; [reflexivity|].
    apply _.
  - rewrite saves_app, Hs1, Hs2, fmap_app. reflexivity.
  - apply Forall_app. split; [exact Hf1|].
    apply (Forall_impl _ _ _ Hf2). intros row Hrow Hin. apply Hrow.
    rewrite Hp1. apply elem_of_union. auto.
  - rewrite fmap_app. apply NoDup_app. split_and!; [exact Hd1| |exact Hd2].
    intros key Hin1 Hin2. apply list_elem_of_fmap in Hin2 as (row & -> & Hrow).
    rewrite Forall_forall in Hf2. apply (Hf2 row Hrow).
    rewrite Hp1. apply elem_of_union. right.
    apply elem_of_list_to_set, Hin1.
  - apply Forall_app. auto.
Qed.

Lemma growing_refl h : growing h h.
Proof. exists [], []. apply grows_quiet; [apply quiet_refl | reflexivity]. Qed.

Lemma growing_trans h h1 h2 : growing h h1 → growing h1 h2 → growing h h2.
Proof.
  intros (t1 & r1 & G1) (t2 & r2 & G2). eexists _, _.
  exact (grows_trans _ _ _ _ _ _ _ G1 G2).
Qed.

Lemma select_option_growing element_id value (h h' : Handler World) selected :
  _select_option element_id value default_max_retries h = (selected, h') →
  growing h h'.
Proof.
  intros Hrun. apply select_option_once in Hrun as (t & ? & Q & S & _).
  exists t, []. apply grows_quiet; [exact Q|]. unfold saves. rewrite S.
  reflexivity.
Qed.

Lemma log_growing level format args (h h' : Handler World) u :
  log level format args h = (u, h') → growing h h'.
Proof.
  intros Hrun. apply log_run in Hrun. eexists _, [].
  apply grows_quiet; [exact Hrun | reflexivity].
Qed.

Lemma get_options_growing control exclude_default max_wait
    (h h' : Handler World) found :
  _get_options_dict (form_elements control) exclude_default max_wait h
  = (found, h') →
  growing h h'
  ∧ ∀ d : dict, found = inl d → exclude_default = true →
      ∀ item, item ∈ d → offered control item.1.
Proof.
  unfold _get_options_dict. intros Hrun.
  apply bind_run in Hrun as (options & h1 & H1 & Hrun).
  apply call_run in H1 as [Q1 Hfound].
  assert (G1 : growing h h1).
  { eexists _, []. apply grows_quiet; [exact Q1 | reflexivity]. }
  destruct options as [options|]; simpl in Hrun.
  - destruct (options_dict_of _ exclude_default options) as [d|e] eqn:E.
    + apply ret_run in Hrun as [-> ->]. split; [exact G1|].
      intros d' [= <-] -> [k v] Hin. unfold options_dict_of in E.
      destruct (foldl _ _ _) as [|first rest] eqn:Efold; [discriminate|].
      injection E as <-. rewrite <- Efold in Hin.
      apply collect_entries in Hin as [Hin|(o & Ho & Hk & Hv & _)];
        [apply elem_of_nil in Hin as []|].
      exists (driver h), max_wait, options, o. auto.
    + apply bind_run in Hrun as (? & h2 & H2 & Hrun).
      apply log_growing in H2. apply ret_run in Hrun as [-> ->].
      split; [exact (growing_trans _ _ _ G1 H2) | discriminate].
  - apply bind_run in Hrun as (? & h2 & H2 & Hrun).
    apply log_growing in H2. apply ret_run in Hrun as [-> ->].
    split; [exact (growing_trans _ _ _ G1 H2) | discriminate].
Qed.

Lemma for_items_growing {A} (body : A → M World Flow) items
    (h h' : Handler World) flow :
  (∀ item h0 flow0 h1, item ∈ items → body item h0 = (flow0, h1) →
     growing h0 h1) →
  for_items body items h = (flow, h') → growing h h'.
Proof.
  revert h. induction items as [|item items IH]; intros h Hbody Hrun.
  - apply ret_run in Hrun as [_ ->]. apply growing_refl.
  - cbn [for_items] in Hrun.
    apply bind_run in Hrun as (flow0 & h1 & H1 & Hrun).
    apply Hbody in H1; [|apply list_elem_of_here].
    destruct flow0.
    + apply (growing_trans _ _ _ H1). apply IH; [|exact Hrun].
      intros item' h0 flow1 h2 Hin. apply Hbody, list_elem_of_further, Hin.
    + apply ret_run in Hrun as [_ ->]. exact H1.
    + apply ret_run in Hrun as [_ ->]. exact H1.
Qed.

Lemma level_growing control next value skip_format error_format inner
    (h h' : Handler World) flow :
  (∀ item h0 flow0 h1, offered next item.1 → inner item h0 = (flow0, h1) →
     growing h0 h1) →
  level control next value skip_format error_format inner h = (flow, h') →
  growing h h'.
Proof.
  intros Hinner. unfold level. intros Hrun.
  apply bind_run in Hrun as (selected & h1 & H1 & Hrun).
  apply select_option_growing in H1. apply (growing_trans _ _ _ H1).
  destruct selected; simpl in Hrun.
  - apply bind_run in Hrun as (found & h2 & H2 & Hrun).
    apply get_options_growing in H2 as [G2 Hoffered].
    apply (growing_trans _ _ _ G2). destruct found as [items|e].
    + apply for_items_growing in Hrun; [exact Hrun|].
      intros item h0 flow0 h3 Hin. apply Hinner.
      exact (Hoffered items eq_refl eq_refl item Hin).
    + apply bind_run in Hrun as (? & h3 & H3 & Hrun).
      apply log_growing in H3. apply ret_run in Hrun as [_ ->]. exact H3.
  - apply bind_run in Hrun as (? & h2 & H2 & Hrun).
    apply log_growing in H2. apply ret_run in Hrun as [_ ->]. exact H2.
Qed.

Lemma visit_combination_growing state district block panchayat year date
    option_dict (h h' : Handler World) flow :
  offered State state.1 → offered District district.1 →
  offered Block block.1 → offered Panchayat panchayat.1 →
  offered Year year.1 → offered Date date.1 →
  visit_combination state district block panchayat year date option_dict h
  = (flow, h') →
  growing h h'.
Proof.
  intros Os Od Ob Op Oy Ot Hrun. apply visit_combination_run in Hrun.
  destruct (choose_option option_dict) as [[value label]|].
  - cbv zeta in Hrun. destruct (decide _) as [Hin|Hnot].
    + destruct Hrun as [_ Q]. eexists _, [].
      apply grows_quiet; [exact Q | reflexivity].
    + destruct Hrun as (t & outcome & Ht & _ & _ & Hflow). destruct flow.
      * destruct Hflow as (_ & S & Q & _). exists t, [].
        apply grows_quiet; [exact Q|]. unfold saves. rewrite S. reflexivity.
      * destruct Hflow as (_ & S & r & Hvals & _ & Hr & Hn & Hp).
        exists t, [r]. unfold grows, row_key. simpl. rewrite Hvals.
        split_and!; auto.
        -- rewrite Hp, union_empty_r_L. reflexivity.
        -- unfold saves. rewrite S. reflexivity.
        -- apply Forall_singleton. rewrite Hvals. exact Hnot.
        -- apply NoDup_singleton.
        -- apply Forall_singleton. rewrite Hvals. unfold reachable. simpl.
           split_and!; assumption.
      * destruct Hflow as (_ & S & Q). exists t, [].
        apply grows_quiet; [exact Q|]. unfold saves. rewrite S. reflexivity.
  - destruct Hrun as [_ Q]. eexists _, [].
    apply grows_quiet; [exact Q | reflexivity].
Qed.

Lemma visit_date_growing state district block panchayat year date
    (h h' : Handler World) flow :
  offered State state.1 → offered District district.1 →
  offered Block block.1 → offered Panchayat panchayat.1 →
  offered Year year.1 → offered Date date.1 →
  visit_date state district block panchayat year date h = (flow, h') →
  growing h h'.
Proof.
  intros Os Od Ob Op Oy Ot. unfold visit_date. intros Hrun.
  apply bind_run in Hrun as (selected & h1 & H1 & Hrun).
  apply select_option_growing in H1. apply (growing_trans _ _ _ H1).
  destruct selected; cbn [negb] in Hrun.
  - apply bind_run in Hrun as (found & h2 & H2 & Hrun).
    apply get_options_growing in H2 as [G2 _].
    apply (growing_trans _ _ _ G2). destruct found as [option_dict|e].
    + exact (visit_combination_growing _ _ _ _ _ _ _ _ _ _
               Os Od Ob Op Oy Ot Hrun).
    + apply bind_run in Hrun as (? & h3 & H3 & Hrun).
      apply log_growing in H3. apply ret_run in Hrun as [_ ->]. exact H3.
  - apply bind_run in Hrun as (? & h2 & H2 & Hrun).
    apply log_growing in H2. apply ret_run in Hrun as [_ ->]. exact H2.
Qed.

Lemma visit_year_growing state district block panchayat year
    (h h' : Handler World) flow :
  offered State state.1 → offered District district.1 →
  offered Block block.1 → offered Panchayat panchayat.1 →
  offered Year year.1 →
  visit_year state district block panchayat year h = (flow, h') →
  growing h h'.
Proof.
  intros Os Od Ob Op Oy. apply level_growing.
  intros date h0 flow0 h1 Ot. apply visit_date_growing; assumption.
Qed.

Lemma visit_panchayat_growing state district block panchayat
    (h h' : Handler World) flow :
  offered State state.1 → offered District district.1 →
  offered Block block.1 → offered Panchayat panchayat.1 →
  visit_panchayat state district block panchayat h = (flow, h') →
  growing h h'.
Proof.
  intros Os Od Ob Op. apply level_growing.
  intros year h0 flow0 h1 Oy. apply visit_year_growing; assumption.
Qed.

Lemma visit_block_growing state district block (h h' : Handler World) flow :
  offered State state.1 → offered District district.1 →
  offered Block block.1 →
  visit_block state district block h = (flow, h') → growing h h'.
Proof.
  intros Os Od Ob. apply level_growing.
  intros panchayat h0 flow0 h1 Op. apply visit_panchayat_growing; assumption.
Qed.

Lemma visit_district_growing state district (h h' : Handler World) flow :
  offered State state.1 → offered District district.1 →
  visit_district state district h = (flow, h') → growing h h'.
Proof.
  intros Os Od. apply level_growing.
  intros block h0 flow0 h1 Ob. apply visit_block_growing; assumption.
Qed.

Lemma visit_state_growing state (h h' : Handler World) flow :
  offered State state.1 →
  visit_state state h = (flow, h') → growing h h'.
Proof.
  intros Os. unfold visit_state.
  destruct (negb (contains _ _)).
  - intros Hrun. apply ret_run in Hrun as [_ ->]. apply growing_refl.
  - apply level_growing.
    intros district h0 flow0 h1 Od. apply visit_district_growing; assumption.
Qed.

Lemma iterate_form_growing (h h' : Handler World) flow :
  iterate_form h = (flow, h') → growing h h'.
Proof.
  unfold iterate_form. intros Hrun.
  apply bind_run in Hrun as (found & h1 & H1 & Hrun).
  apply get_options_growing in H1 as [G1 Hoffered].
  apply (growing_trans _ _ _ G1). destruct found as [state_dict|e].
  - apply for_items_growing in Hrun; [exact Hrun|].
    intros state h0 flow0 h2 Hin. apply visit_state_growing.
    exact (Hoffered state_dict eq_refl eq_refl state Hin).
  - apply bind_run in Hrun as (? & h2 & H2 & Hrun).
    apply log_growing in H2. apply ret_run in Hrun as [_ ->]. exact H2.
Qed.

End Traversal.

(** ** C4 *)

Section Monotone.
Context {World : Type} `{Driver World}.

(** C4: during a run of iterate_form the processed set only grows; a key
    is added exactly when its combination is completed and recorded (the
    loop body then ends with break), every other end of a combination
    leaves the set as it was; the keys added are those of the rows
    recorded, one page is saved for each of them and for nothing else, and
    none of them was in the set at the start; so when the key of every
    combination the form can show is in the processed set at the start, the
    run saves no page and records nothing. *)
Theorem C4_processed_set_only_grows (h : Handler World) :
  let run := iterate_form h in
  (∃ t rows,
     trace run.2 = trace h ++ t
     ∧ results run.2 = results h ++ rows
     ∧ processed_set h ⊆ processed_set run.2
     ∧ processed_set run.2 = processed_set h ∪ list_to_set (row_key <$> rows)
     ∧ saves t = (λ row, page_path (row_vals row)) <$> rows
     ∧ Forall (λ row, row_key row ∉ processed_set h) rows
     ∧ Forall (λ row, reachable (row_vals row)) rows
     ∧ ((∀ row, reachable row → key_of row ∈ processed_set h) →
        saves t = [] ∧ rows = [] ∧ processed_set run.2 = processed_set h))
  ∧ (∀ state district block panchayat year date option_dict
       (h0 : Handler World),
       let leaf :=
         visit_combination state district block panchayat year date
           option_dict h0 in
       (leaf.1 ≠ Stop → processed_set leaf.2 = processed_set h0
                        ∧ results leaf.2 = results h0)
       ∧ (leaf.1 = Stop →
          ∃ row, row_vals row
                 = {| state_val := state.1; district_val := district.1;
                      block_val := block.1; panchayat_val := panchayat.1;
                      year_val := year.1; date_val := date.1;
                      option_val := option_val (row_vals row) |}
                 ∧ results leaf.2 = results h0 ++ [row]
                 ∧ (row_key row ∉ processed_set h0)
                 ∧ processed_set leaf.2 = processed_set h0 ∪ {[ row_key row ]})).
Proof.
  intros run. split.
  - destruct run as [flow h'] eqn:Hrun. subst run.
    apply iterate_form_growing in Hrun
      as (t & rows & Ht & Hr & Hn & Hp & Hs & Hf & Hd & Hv).
    exists t, rows. simpl. split_and!; auto.
    + rewrite Hp. apply union_subseteq_l.
    + intros Hall. assert (rows = []) as ->.
      { destruct rows as [|row rows]; [reflexivity|].
        apply Forall_cons in Hf as [Hnot _]. apply Forall_cons in Hv as [Hreach _].
        destruct (Hnot (Hall _ Hreach)). }
      split_and!; [exact Hs | reflexivity|].
      rewrite Hp. simpl. apply union_empty_r_L.
  - intros state district block panchayat year date option_dict h0 leaf.
    destruct leaf as [flow h'] eqn:Hrun. subst leaf. simpl.
    apply visit_combination_run in Hrun.
    destruct (choose_option option_dict) as [[value label]|].
    + cbv zeta in Hrun. destruct (decide _) as [Hin|Hnot].
      * destruct Hrun as [-> (_ & Hr & _ & Hp)]. split; [auto | discriminate].
      * destruct Hrun as (t & outcome & Ht & _ & _ & Hflow). destruct flow.
        -- destruct Hflow as (_ & _ & (_ & Hr & _ & Hp) & _).
           split; [auto | discriminate].
        -- destruct Hflow as (_ & _ & r & Hvals & _ & Hr & _ & Hp).
           split; [intros Hne; destruct (Hne eq_refl)|]. intros _.
           exists r. unfold row_key. rewrite Hvals. simpl. auto.
        -- destruct Hflow as (_ & _ & (_ & Hr & _ & Hp)).
           split; [auto | discriminate].
    + destruct Hrun as [-> (_ & Hr & _ & Hp)]. split; [auto | discriminate].
Qed.

End Monotone.

(** On the demo form a dropdown shows only the values listed for it.
    [offered_values Ho] turns [Ho : offered control value] into one case
    for each option of the dropdown that is kept. *)
Ltac offered_values Ho :=
  let Hfind := fresh in let Hin := fresh in
  let Hkept := fresh in let Hval := fresh in
  destruct Ho as (? & ? & ? & ? & Hfind & Hin & Hkept & Hval);
  vm_compute in Hfind; injection Hfind as <-;
  repeat (apply elem_of_cons in Hin as [->|Hin]);
  [..|apply elem_of_nil in Hin as []];
  vm_compute in Hkept; try discriminate Hkept; clear Hkept;
  match type of Hval with
  | ?l = ?r => let v := eval vm_compute in l in change (v = r) in Hval
  end;
  rewrite <- Hval; clear Hval.

Lemma demo_done_covers (row : Combo) :
  reachable (World := Session demo_site) row →
  key_of row ∈ processed_set demo_done.
Proof.
  intros (Os & Od & Ob & Op & Oy & Ot). unfold key_of.
  offered_values Os; offered_values Od; offered_values Ob;
    offered_values Op; offered_values Oy; offered_values Ot;
    refine (bool_decide_unpack _ _); vm_compute; exact I.
Qed.

Lemma C4_processed_set_only_grows_witness :
  let run := iterate_form demo_done in
  saves (trace run.2) = [] ∧ results run.2 = []
  ∧ processed_set run.2 = processed_set demo_done.
Proof.
  destruct (C4_processed_set_only_grows demo_done)
    as [(t & rows & Ht & Hr & _ & _ & _ & _ & _ & Hzero) _].
  destruct (Hzero demo_done_covers) as (Hs & -> & Hp).
  cbv zeta. rewrite Ht, Hr. split_and!; [exact Hs | reflexivity | exact Hp].
Defined.

(** * Further properties *)

(** ** Stripping *)

Lemma lstrip_idem s : PyStr.lstrip (PyStr.lstrip s) = PyStr.lstrip s.
Proof.
  induction s as [|c r IH]; simpl; [reflexivity|].
  destruct (PyStr.isspace c) eqn:E; [exact IH|]. simpl. rewrite E. reflexivity.
Qed.

Lemma lstrip_fixed s :
  PyStr.lstrip s = s ↔ match s with c :: _ => PyStr.isspace c = false | [] => True end.
Proof.
  destruct s as [|c r]; simpl; [tauto|].
  destruct (PyStr.isspace c) eqn:E; split; try done.
  intros Heq. assert (Hlen : (length (PyStr.lstrip r) ≤ length r)%nat).
  { clear. induction r as [|d r IH]; simpl; [lia|].
    destruct (PyStr.isspace d); simpl; lia. }
  rewrite Heq in Hlen. simpl in Hlen. lia.
Qed.

(** What [lstrip] removes is white space. *)
Lemma lstrip_split s :
  ∃ spaces, s = spaces ++ PyStr.lstrip s
            ∧ Forall (λ c, PyStr.isspace c = true) spaces.
Proof.
  induction s as [|c r (spaces & Hr & Hs)]; simpl.
  - exists []. split; [reflexivity | constructor].
  - destruct (PyStr.isspace c) eqn:E.
    + exists (c :: spaces). split; [simpl; congruence | constructor; auto].
    + exists []. split; [reflexivity | constructor].
Qed.

Lemma lstrip_app_keep s t :
  PyStr.lstrip s = s → s ≠ [] → PyStr.lstrip (s ++ t) = s ++ t.
Proof.
  destruct s as [|c r]; [congruence|]. intros Hs _.
  apply lstrip_fixed in Hs. simpl in *. rewrite Hs. reflexivity.
Qed.

Lemma rstrip_idem s : PyStr.rstrip (PyStr.rstrip s) = PyStr.rstrip s.
Proof.
  unfold PyStr.rstrip. rewrite rev_involutive, lstrip_idem. reflexivity.
Qed.

(** [rstrip] keeps the start of the string. *)
Lemma lstrip_rstrip s :
  PyStr.lstrip s = s → PyStr.lstrip (PyStr.rstrip s) = PyStr.rstrip s.
Proof.
  intros Hs. unfold PyStr.rstrip.
  destruct (lstrip_split (rev s)) as (spaces & Hrev & _).
  destruct (rev (PyStr.lstrip (rev s))) as [|c r] eqn:E; [reflexivity|].
  apply lstrip_fixed. apply lstrip_fixed in Hs.
  assert (Hsplit : s = (c :: r) ++ rev spaces).
  { rewrite <- E, <- rev_app_distr, <- Hrev, rev_involutive. reflexivity. }
  rewrite Hsplit in Hs. exact Hs.
Qed.

Lemma strip_idem s : PyStr.strip (PyStr.strip s) = PyStr.strip s.
Proof.
  unfold PyStr.strip.
  rewrite (lstrip_rstrip (PyStr.lstrip s)) by apply lstrip_idem.
  apply rstrip_idem.
Qed.

Lemma clean_value_stripped s :
  PyStr.strip s = s → clean_value s = map sanitize_char s.
Proof. unfold clean_value. intros ->. reflexivity. Qed.

(** ** File names of raw values *)

Lemma sanitize_app a b :
  map sanitize_char (a ++ b) = map sanitize_char a ++ map sanitize_char b.
Proof. apply map_app. Qed.

(** The name written for any seven values: their sanitized forms joined by
    '_', and the suffix. *)
Lemma page_filename_fields row :
  page_filename row =
    ((map sanitize_char (state_val row) ++ "_" ::
      map sanitize_char (district_val row) ++ "_" ::
      map sanitize_char (block_val row) ++ "_" ::
      map sanitize_char (panchayat_val row) ++ "_" ::
      map sanitize_char (year_val row) ++ "_" ::
      map sanitize_char (date_val row))
     ++ "_" :: map sanitize_char (option_val row)) ++ «".html.gz"».
Proof.
  unfold page_filename. cbv zeta.
  repeat (rewrite sanitize_app; cbn [map]).
  change (sanitize_char "_") with "_".
  change (map sanitize_char «".html.gz"») with «".html.gz"».
  repeat (rewrite <- app_assoc; cbn [app]). reflexivity.
Qed.

Lemma cleaned_sanitized row : sanitized (cleaned row).
Proof.
  unfold sanitized, cleaned. simpl.
  split_and!; apply clean_value_id, sanitize_clean.
Qed.

Lemma page_filename_cleaned row : page_filename (cleaned row) = page_filename row.
Proof.
  rewrite (page_filename_sanitized _ (cleaned_sanitized row)).
  rewrite page_filename_fields. reflexivity.
Qed.

Lemma key_of_stripped row : stripped row → key_of row = fields_of (cleaned row).
Proof.
  intros (H1 & H2 & H3 & H4 & H5 & H6). unfold key_of, fields_of, cleaned.
  simpl. rewrite !clean_value_stripped by assumption. reflexivity.
Qed.

Lemma parse_raw_filename row :
  stripped row → delimiter_free (cleaned row) →
  parse_stem (stem (page_filename row)) = ParsedKey (key_of row).
Proof.
  intros Hs Hd. rewrite <- page_filename_cleaned, (key_of_stripped row Hs).
  apply parse_page_filename; [apply cleaned_sanitized | exact Hd].
Qed.

(** X1: the name saved for any stripped values, sanitized or not, is read
    back by the loader as the key that iterate_form builds for them,
    provided that after sanitization no value other than the date contains
    '_'. *)
Theorem X1_saved_name_gives_key (row : Combo) :
  stripped row → delimiter_free (cleaned row) →
  parse_stem (stem (page_filename row)) = ParsedKey (key_of row).
Proof. apply parse_raw_filename. Qed.

Lemma X1_saved_name_gives_key_witness :
  parse_stem (stem (page_filename raw_combo))
  = ParsedKey («"21"», «"2104"», «"2104003"», «"2104003001"», «"2020-2021"»,
               «"15_01_2021"»).
Proof.
  apply (X1_saved_name_gives_key raw_combo).
  - repeat split.
  - unfold delimiter_free, cleaned, raw_combo;
      cbn [state_val district_val block_val panchayat_val year_val option_val].
    repeat split;
      match goal with
      | |- _ ∉ ?l => let v := eval vm_compute in l in change l with v
      end; absent.
Defined.

(** X2: whatever the seven values are, the name written by _save_webpage
    has only characters that sanitization keeps, so no '/' and no white
    space; it ends in .html.gz and has at least six '_'; the path returned
    is that name directly under ../data/html. *)
Theorem X2_page_filename_is_safe (row : Combo) :
  clean (page_filename row)
  ∧ ("/" ∉ page_filename row)
  ∧ (∀ c, c ∈ page_filename row → PyStr.isspace c = false)
  ∧ PyStr.endswith «".html.gz"» (page_filename row) = true
  ∧ (7 ≤ length (PyStr.split "_" (stem (page_filename row))))%nat
  ∧ page_path row = «"../data/html/"» ++ page_filename row.
Proof.
  assert (Hclean : clean (page_filename row)) by apply sanitize_clean.
  split_and!.
  - exact Hclean.
  - intros Hin. unfold clean in Hclean. rewrite Forall_forall in Hclean.
    specialize (Hclean _ Hin). vm_compute in Hclean. discriminate.
  - intros c Hin. apply keep_char_not_space.
    unfold clean in Hclean. rewrite Forall_forall in Hclean. auto.
  - rewrite page_filename_fields. apply endswith_app.
  - rewrite page_filename_fields, stem_html_gz.
    repeat (rewrite <- app_assoc; cbn [app]).
    rewrite !split_app_sep, !length_app.
    pose proof (split_max_nonempty "_"). unfold PyStr.split.
    repeat match goal with
    | |- context [length (PyStr.split_max "_" ?n ?x)] =>
        let Hx := fresh in
        assert (Hx : (1 ≤ length (PyStr.split_max "_" n x))%nat)
          by (destruct (PyStr.split_max "_" n x) eqn:Ex;
              [exfalso; eapply split_max_nonempty; exact Ex | simpl; lia]);
        generalize dependent (length (PyStr.split_max "_" n x)); intros
    end. lia.
  - reflexivity.
Qed.

(** ** Resuming *)


Section Resume.
Context {World : Type} `{Driver World}.


End Resume.


(** ** Invariants of a run *)

Lemma key_of_base_clean base key :
  key_of_base base = ParsedKey key → clean_key key.
Proof.
  unfold key_of_base.
  destruct (PyStr.split_max "_" 5 base) as [|a [|b [|c [|d [|e [|f [|g l]]]]]]];
    intros [= <-]. simpl. split_and!; apply clean_value_clean.
Qed.

Lemma parse_stem_clean filename key :
  parse_stem filename = ParsedKey key → clean_key key.
Proof.
  unfold parse_stem. destruct (PyStr.rsplit1 "_" filename) as [[base o]|];
    [apply key_of_base_clean | discriminate].
Qed.

Lemma key_of_clean row : clean_key (key_of row).
Proof. unfold key_of. simpl. split_and!; apply clean_value_clean. Qed.

Lemma loaded_keys_clean listing key :
  key ∈ _load_processed_set listing → clean_key key.
Proof.
  destruct listing as [names|].
  - rewrite elem_of_load_processed_set. intros (name & _ & _ & Hp).
    exact (parse_stem_clean _ _ Hp).
  - intros Hin. apply not_elem_of_empty in Hin as [].
Qed.

Section Invariants.
Context {World : Type} `{Driver World}.

(** X4: from __init__ to the end of iterate_form every key in the
    processed set has six fields in sanitized form, whatever the directory
    holds and whatever the form shows. *)
Theorem X4_processed_keys_are_clean (w : World) (listing : option (list str)) :
  (∀ key, key ∈ processed_set (init w listing) → clean_key key)
  ∧ (∀ key, key ∈ processed_set (iterate_form (init w listing)).2 →
       clean_key key).
Proof.
  split; [intros key; apply loaded_keys_clean|].
  destruct (iterate_form (init w listing)) as [flow h'] eqn:Hrun.
  apply iterate_form_growing in Hrun as (t & rows & _ & _ & _ & Hp & _).
  intros key. simpl. rewrite Hp, elem_of_union, elem_of_list_to_set.
  intros [Hin|Hin]; [exact (loaded_keys_clean _ _ Hin)|].
  apply list_elem_of_fmap in Hin as (row & -> & _). apply key_of_clean.
Qed.

(** X5: at the end of iterate_form on a fresh handler the running count is
    the number of rows recorded, one page was saved (or tried) per row, no
    two rows have the same key, and the key of every row is in the
    processed set but was not in the set loaded from the directory. *)
Theorem X5_count_rows_and_keys_agree (w : World) (listing : option (list str)) :
  let run := iterate_form (init w listing) in
  total_processed run.2 = Z.of_nat (length (results run.2))
  ∧ saves (trace run.2) = (λ row, page_path (row_vals row)) <$> results run.2
  ∧ NoDup (row_key <$> results run.2)
  ∧ processed_set run.2
    = _load_processed_set listing ∪ list_to_set (row_key <$> results run.2)
  ∧ (∀ row, row ∈ results run.2 → row_key row ∉ _load_processed_set listing).
Proof.
  intros run. destruct run as [flow h'] eqn:Hrun. subst run.
  apply iterate_form_growing in Hrun
    as (t & rows & Ht & Hr & Hn & Hp & Hs & Hf & Hd & _).
  cbn [init trace results total_processed processed_set fst snd app] in *.
  rewrite Ht, Hr, Hn, Hp. split_and!; auto.
  rewrite Forall_forall in Hf. exact Hf.
Qed.

End Invariants.

(** ** The loader and the directory listing *)

(** X6: the loader reads each name on its own: the set for two listings
    put together is the union of their sets, listings with the same names
    give the same set, and a name that ends neither in .html nor in
    .html.gz adds nothing. *)
Theorem X6_loader_reads_names_one_by_one (names names' : list str) :
  _load_processed_set (Some (names ++ names'))
  = _load_processed_set (Some names) ∪ _load_processed_set (Some names')
  ∧ ((∀ name, name ∈ names ↔ name ∈ names') →
     _load_processed_set (Some names) = _load_processed_set (Some names'))
  ∧ (∀ name, ¬ is_html name →
     _load_processed_set (Some (name :: names))
     = _load_processed_set (Some names)).
Proof.
  split_and!.
  - apply set_eq. intros key.
    rewrite elem_of_union, !elem_of_load_processed_set. split.
    + intros (name & Hin & Hrest). apply elem_of_app in Hin as [Hin|Hin];
        [left|right]; exists name; auto.
    + intros [(name & Hin & Hrest)|(name & Hin & Hrest)]; exists name;
        rewrite elem_of_app; auto.
  - intros Hsame. apply set_eq. intros key.
    rewrite !elem_of_load_processed_set. split;
      intros (name & Hin & Hrest); exists name; split; auto;
      apply Hsame, Hin.
  - intros name Hnot. apply set_eq. intros key.
    rewrite !elem_of_load_processed_set. split.
    + intros (name' & Hin & Hhtml & Hp).
      apply elem_of_cons in Hin as [->|Hin]; [destruct (Hnot Hhtml)|].
      exists name'. auto.
    + intros (name' & Hin & Hrest). exists name'.
      rewrite elem_of_cons. auto.
Qed.

Lemma X6_loader_reads_names_one_by_one_witness :
  _load_processed_set (Some [«"run.log"»; name_meghalaya])
  = _load_processed_set (Some [name_meghalaya]).
Proof.
  apply (X6_loader_reads_names_one_by_one [name_meghalaya] []).
  intros [Hhtml|Hhtml]; vm_compute in Hhtml; discriminate.
Defined.

(** ** The mapping built by _get_options_dict *)

Lemma dict_get_set key value (d : dict) k :
  dict_get k (dict_set key value d)
  = if PyStr.eqb key k then Some value else dict_get k d.
Proof.
  induction d as [|[k' v'] rest IH]; simpl; [reflexivity|].
  destruct (PyStr.eqb k' key) eqn:E; simpl.
  - apply bool_decide_eq_true in E as ->.
    destruct (PyStr.eqb key k); reflexivity.
  - rewrite IH.
    destruct (PyStr.eqb k' k) eqn:E1, (PyStr.eqb key k) eqn:E2;
      try reflexivity.
    apply bool_decide_eq_true in E1, E2. apply bool_decide_eq_false in E.
    congruence.
Qed.

Lemma NoDup_collect exclude_default options (acc : dict) :
  NoDup acc.*1 → NoDup (foldl (collect_option exclude_default) acc options).*1.
Proof.
  revert acc. induction options as [|o options IH]; intros acc Hacc; simpl;
    [exact Hacc|].
  apply IH. unfold collect_option. simpl.
  destruct (_ && _); [exact Hacc | apply NoDup_dict_set, Hacc].
Qed.

Lemma collect_stripped exclude_default options (acc : dict) k v :
  (k, v) ∈ foldl (collect_option exclude_default) acc options →
  (k, v) ∈ acc ∨ (PyStr.strip k = k ∧ PyStr.strip v = v).
Proof.
  revert acc. induction options as [|o options IH]; intros acc; simpl; [auto|].
  intros Hin. apply IH in Hin as [Hin|Hin]; [|auto].
  unfold collect_option in Hin. simpl in Hin.
  destruct (_ && _); [auto|].
  apply elem_of_dict_set in Hin as [[-> ->]|Hin]; [|auto].
  right. split; apply strip_idem.
Qed.

Lemma collect_get exclude_default options (acc : dict) k :
  dict_get k (foldl (collect_option exclude_default) acc options)
  = match last (labels_of exclude_default k options) with
    | Some label => Some label
    | None => dict_get k acc
    end.
Proof.
  revert acc. induction options as [|o options IH]; intros acc; simpl;
    [reflexivity|].
  rewrite IH. unfold collect_option, included. simpl.
  destruct (exclude_default && is_default (PyStr.strip (value_attr o)));
    simpl; [reflexivity|].
  rewrite dict_get_set.
  destruct (PyStr.eqb (PyStr.strip (value_attr o)) k); [|reflexivity].
  rewrite last_cons. destruct (last _); reflexivity.
Qed.

Lemma collect_none exclude_default options (acc : dict) :
  foldl (collect_option exclude_default) acc options = [] ↔
  acc = [] ∧ Forall (λ option, included exclude_default option = false) options.
Proof.
  revert acc. induction options as [|o options IH]; intros acc; simpl.
  - split; [auto | tauto].
  - rewrite IH, Forall_cons. unfold collect_option, included. simpl.
    destruct (exclude_default && is_default (PyStr.strip (value_attr o)));
      simpl.
    + tauto.
    + split; [intros [Hne _]; destruct (dict_set_nonempty _ _ _ Hne)|].
      intros (_ & Hk & _). discriminate.
Qed.

(** X7: in the mapping that _get_options_dict builds, a value that several
    options share is one entry with the label of the last of them; values
    and labels are stripped and the values distinct; with exclude_default
    off every option is taken, placeholders too, and the only error is the
    dropdown without options. *)
Theorem X7_options_dict_lookup element (exclude_default : bool)
    (options : list WebOption) :
  match options_dict_of element exclude_default options with
  | inl d =>
      (∀ value, dict_get value d
                = last (labels_of exclude_default value options))
      ∧ NoDup d.*1
      ∧ (∀ value label, (value, label) ∈ d →
           PyStr.strip value = value ∧ PyStr.strip label = label)
  | inr e =>
      e = NoOptionsFound element
      ∧ Forall (λ option, included exclude_default option = false) options
      ∧ (exclude_default = false → options = [])
  end.
Proof.
  unfold options_dict_of.
  destruct (foldl (collect_option exclude_default) [] options)
    as [|item d] eqn:E.
  - apply collect_none in E as [_ Hall]. split_and!; auto.
    intros ->. destruct options as [|o options]; [reflexivity|].
    apply Forall_cons in Hall as [Ho _]. discriminate.
  - rewrite <- E. split_and!.
    + intros value. rewrite collect_get. simpl. destruct (last _); reflexivity.
    + apply NoDup_collect. constructor.
    + intros value label Hin. apply collect_stripped in Hin as [Hin|Hin];
        [apply elem_of_nil in Hin as [] | exact Hin].
Qed.

(** ** Attempts of _select_option *)

Section Attempts.
Context {World : Type} `{Driver World}.

Lemma select_attempts_count element_id value max_retries (first count : nat)
    (h h' : Handler World) selected :
  Z.of_nat (first + count) = max_retries →
  select_attempts element_id value max_retries
    (Z.of_nat <$> seq first count) h = (selected, h') →
  ∃ t, trace h' = trace h ++ t
    ∧ if selected then
        ∃ failures, select_outcomes t = failures ++ [Selected]
                    ∧ Forall (λ o, o ≠ Selected) failures
                    ∧ last t = Some (Select element_id value Selected)
      else
        length (select_outcomes t) = count
        ∧ Forall (λ o, o ≠ Selected) (select_outcomes t).
Proof.
  revert first h h' selected.
  induction count as [|count IH]; intros first h h' selected Hmax Hrun.
  - injection Hrun as <- <-. exists []. rewrite app_nil_r.
    split_and!; [reflexivity.. | constructor].
  - cbn [seq fmap list_fmap select_attempts] in Hrun.
    unfold bind, call, log, ret in Hrun.
    destruct (select_by_value element_id value (driver h)) as [[] w].
    + injection Hrun as <- <-. exists [Select element_id value Selected].
      split; [reflexivity|]. exists []. split_and!; [reflexivity | constructor | reflexivity].
    + simpl in Hrun.
      destruct (script_click element_id w) as [[] w'];
        apply (IH (S first)) in Hrun as (t & Ht & Hs); try lia;
        [eexists (_ :: _ :: _ :: t) | eexists (_ :: _ :: _ :: _ :: t)];
        (split; [simpl in Ht; rewrite Ht, <- ?app_assoc; reflexivity|]);
        (destruct selected;
         [destruct Hs as (failures & Ho & Hf & Hl);
          exists (Transient :: failures); simpl; rewrite Ho;
          split_and!; [reflexivity | constructor; [discriminate | exact Hf]|];
          destruct t; [discriminate | exact Hl]
         |destruct Hs as [Hlen Hf]; simpl; split;
          [congruence | constructor; [discriminate | exact Hf]]]).
    + simpl in Hrun. destruct (Z.of_nat first =? max_retries - 1) eqn:Elast.
      * injection Hrun as <- <-. eexists [_; _].
        split; [simpl; rewrite <- app_assoc; reflexivity|]. simpl.
        apply Z.eqb_eq in Elast. split; [f_equal; lia|].
        repeat constructor. discriminate.
      * apply (IH (S first)) in Hrun as (t & Ht & Hs); try lia.
        eexists (_ :: _ :: t).
        split; [simpl in Ht; rewrite Ht, <- ?app_assoc; reflexivity|].
        destruct selected.
        -- destruct Hs as (failures & Ho & Hf & Hl).
           exists (Failed :: failures). simpl. rewrite Ho.
           split_and!; [reflexivity | constructor; [discriminate | exact Hf]|].
           destruct t; [discriminate | exact Hl].
        -- destruct Hs as [Hlen Hf]. simpl. split;
             [congruence | constructor; [discriminate | exact Hf]].
Qed.

(** X8: _select_option stops at the first selection that goes through and
    does nothing after it; when it returns False it has made all
    max_retries attempts and none went through; for max_retries of zero or
    less it returns False without touching the browser. *)
Theorem X8_select_option_attempts element_id value max_retries
    (h : Handler World) :
  let run := _select_option element_id value max_retries h in
  (∃ t, trace run.2 = trace h ++ t
     ∧ if run.1 then
         ∃ failures, select_outcomes t = failures ++ [Selected]
                     ∧ Forall (λ o, o ≠ Selected) failures
                     ∧ last t = Some (Select element_id value Selected)
       else
         length (select_outcomes t) = Z.to_nat max_retries
         ∧ Forall (λ o, o ≠ Selected) (select_outcomes t))
  ∧ (max_retries ≤ 0 → run = (false, h)).
Proof.
  intros run. split.
  - destruct run as [selected h'] eqn:Hrun. subst run.
    unfold _select_option, range in Hrun. simpl.
    destruct (Z_le_gt_dec 0 max_retries) as [Hpos|Hneg].
    + apply (select_attempts_count _ _ _ 0 (Z.to_nat max_retries)) in Hrun;
        [exact Hrun | lia].
    + replace (Z.to_nat max_retries) with 0%nat in * by lia.
      injection Hrun as <- <-. exists []. rewrite app_nil_r.
      split_and!; [reflexivity.. | constructor].
  - intros Hle. subst run. unfold _select_option, range.
    replace (Z.to_nat max_retries) with 0%nat by lia. reflexivity.
Qed.

End Attempts.

(** ** The start of the traversal *)

Section Start.
Context {World : Type} `{Driver World}.

(** X9: when the state dropdown cannot be read, or shows nothing but
    placeholders, iterate_form returns at once: it logs the error twice,
    selects nothing, saves nothing and leaves results and the processed set
    as they were. *)
Theorem X9_unreadable_states_end_the_run (h : Handler World) :
  let found :=
    (find_options (form_elements State) default_max_wait (driver h)).1 in
  let run := iterate_form h in
  match found with
  | Some options => Forall (λ option, ¬ kept option) options
  | None => True
  end →
  run.1 = Next
  ∧ ∃ e, e = match found with
             | Some _ => NoOptionsFound (form_elements State)
             | None => DriverError
             end
         ∧ quiet h run.2
             [Options (form_elements State) found;
              Log ERROR «"Error getting options for element %s: %s"»
                [AStr (form_elements State); AErr e];
              Log ERROR «"Unable to get state options: %s"» [AErr e]].
Proof.
  intros found run. subst found run.
  unfold iterate_form, _get_options_dict, bind, call, log, ret.
  destruct (find_options (form_elements State) default_max_wait (driver h))
    as [[options|] w]; cbn [fst].
  - intros Hall. unfold options_dict_of.
    assert (E : foldl (collect_option true) [] options = [])
      by (apply collect_empty; auto).
    rewrite E. simpl. split; [reflexivity|]. eexists. split; [reflexivity|].
    unfold quiet. simpl. rewrite <- !app_assoc. auto.
  - intros _. simpl. split; [reflexivity|]. eexists. split; [reflexivity|].
    unfold quiet. simpl. rewrite <- !app_assoc. auto.
Qed.

Lemma for_items_off_target (states : dict) (h : Handler World) :
  Forall off_target states → for_items visit_state states h = (Next, h).
Proof.
  induction 1 as [|state states Hoff _ IH]; [reflexivity|].
  cbn [for_items]. unfold bind, visit_state. rewrite Hoff. simpl. exact IH.
Qed.

(** X10: when no label of the state dropdown contains "meghalaya" in any
    mix of cases, iterate_form reads that dropdown and does nothing else:
    the state it returns in is the one the reading left. *)
Theorem X10_other_states_are_passed_over (h : Handler World) (states : dict) :
  let read :=
    _get_options_dict (form_elements State) true default_max_wait h in
  read.1 = inl states → Forall off_target states →
  iterate_form h = (Next, read.2).
Proof.
  intros read Hread Hoff. subst read. unfold iterate_form, bind.
  destruct (_get_options_dict _ _ _ h) as [found h1]. simpl in Hread.
  subst found. simpl. apply for_items_off_target, Hoff.
Qed.

End Start.

Lemma X9_unreadable_states_end_the_run_witness :
  (iterate_form (init (session placeholder_only) (Some []))).1 = Next.
Proof.
  apply (X9_unreadable_states_end_the_run
           (init (session placeholder_only) (Some []))).
  simpl. repeat constructor. unfold kept. vm_compute. congruence.
Defined.

Lemma X10_other_states_are_passed_over_witness :
  steps (trace (iterate_form (init (session kerala_only) (Some []))).2) = [].
Proof.
  rewrite (X10_other_states_are_passed_over
             (init (session kerala_only) (Some [])) [(«"16"», «"KERALA"»)]).
  - reflexivity.
  - reflexivity.
  - repeat constructor.
Defined.

(** ** Saving *)

Section Saving.
Context {World : Type} `{Driver World}.

Lemma save_webpage_result row (h h' : Handler World) file :
  _save_webpage row h = (file, h') →
  ∃ written : bool,
    written = (write_page (page_path row) (driver h)).1
    ∧ file = (if written then page_path row else [])
    ∧ quiet h h'
        (Save (page_path row) written
         :: if written then []
            else [Log ERROR «"Error saving compressed HTML: %s"»
                    [AErr DriverError]]).
Proof.
  unfold _save_webpage, bind, call, log, ret.
  change (html_dir ++ "/" :: page_filename row) with (page_path row).
  destruct (write_page (page_path row) (driver h)) as [[] w];
    intros [= <- <-]; eexists; (split; [reflexivity|]);
    (split; [reflexivity|]); unfold quiet; simpl; rewrite <- ?app_assoc; auto.
Qed.

(** X11: once the option is selected, the combination counts as done
    whether or not its page could be written: the row is recorded, the
    count goes up, the key enters the processed set and the loop over dates
    is left; the row holds the path when the write went through and the
    empty string when it failed. *)
Theorem X11_failed_write_is_recorded state district block panchayat year
    date option_dict value label (h : Handler World) :
  let row := {| state_val := state.1; district_val := district.1;
                block_val := block.1; panchayat_val := panchayat.1;
                year_val := year.1; date_val := date.1;
                option_val := value |} in
  let run :=
    visit_combination state district block panchayat year date
      option_dict h in
  choose_option option_dict = Some (value, label) →
  key_of row ∉ processed_set h →
  (select_by_value (form_elements Option) value (driver h)).1 = Selected →
  run.1 = Stop
  ∧ ∃ r (written : bool) t,
      results run.2 = results h ++ [r]
      ∧ row_vals r = row
      ∧ html_file r = (if written then page_path row else [])
      ∧ trace run.2 = trace h ++ t
      ∧ Save (page_path row) written ∈ t
      ∧ total_processed run.2 = total_processed h + 1
      ∧ processed_set run.2 = processed_set h ∪ {[ key_of row ]}.
Proof.
  intros row run Hchoice Hnot Hsel.
  destruct run as [flow h'] eqn:Hrun. subst run. cbn [fst snd].
  unfold visit_combination in Hrun. rewrite Hchoice in Hrun. fold row in Hrun.
  apply bind_run in Hrun as (processed & h0 & H0 & Hrun).
  apply get_run in H0 as [-> ->]. cbv zeta in Hrun.
  destruct (decide _) as [Hin|_]; [destruct (Hnot Hin)|].
  apply bind_run in Hrun as (success & h1 & H1 & Hrun).
  apply select_final_option_run in H1 as (t1 & outcome & Q1 & _ & Hfrom & Hs).
  unfold row in Hfrom. cbn [option_val] in Hfrom.
  rewrite Hsel in Hfrom. subst outcome.
  destruct success as [[]|];
    [|destruct Hs as [Hne _]; contradiction
     |destruct Hs as [Hne _]; contradiction].
  apply bind_run in Hrun as (file & h2 & H2 & Hrun).
  apply save_webpage_result in H2 as (written & _ & -> & Q2).
  pose proof (quiet_trans _ _ _ _ _ Q1 Q2) as (Ht & Hr & Hn & Hp).
  unfold bind, read_clock, append_result, count_processed, add_processed,
    get, log, ret in Hrun.
  destruct (now (driver h2)) as [time w]. injection Hrun as <- <-.
  split; [reflexivity|].
  eexists (Build_Row _ _ _ _ _ _ _ _ _ _), written, _. simpl.
  split_and!; try reflexivity.
  - rewrite Hr. reflexivity.
  - rewrite Ht, <- app_assoc. reflexivity.
  - rewrite !elem_of_app. left. right. apply list_elem_of_here.
  - rewrite Hn. reflexivity.
  - rewrite Hp. reflexivity.
Qed.

End Saving.

Lemma X11_failed_write_is_recorded_witness :
  let h := init (session unwritable_site) (Some []) in
  let row := demo_combo «"15-01-2021"» in
  let run :=
    visit_combination demo_state demo_district demo_block demo_panchayat
      demo_year demo_date demo_option_dict h in
  run.1 = Stop
  ∧ ∃ r (written : bool) t,
      results run.2 = results h ++ [r]
      ∧ row_vals r = row
      ∧ html_file r = (if written then page_path row else [])
      ∧ trace run.2 = trace h ++ t
      ∧ Save (page_path row) written ∈ t
      ∧ total_processed run.2 = total_processed h + 1
      ∧ processed_set run.2 = processed_set h ∪ {[ key_of row ]}.
Proof.
  apply (X11_failed_write_is_recorded demo_state demo_district demo_block
           demo_panchayat demo_year demo_date demo_option_dict
           «"1"» «"All"» (init (session unwritable_site) (Some []))).
  - reflexivity.
  - apply not_elem_of_empty.
  - reflexivity.
Defined.

(** ** Plain and compressed files *)

Lemma stem_html x : x ≠ [] → stem (x ++ «".html"») = x.
Proof.
  intros Hx. unfold stem.
  change (x ++ «".html"») with (x ++ "." :: «"html"»).
  unfold PyStr.rfind. rewrite rfind_from_last by absent.
  rewrite !length_app. simpl length.
  assert (0 < length x)%nat by (destruct x; [congruence | simpl; lia]).
  replace (_ && _) with true
    by (symmetry; apply andb_true_iff; split; apply Z.ltb_lt; lia).
  replace (Z.to_nat _) with (length x) by lia.
  apply take_app_length.
Qed.

(** X12: the loader reads a plain .html file like the compressed one: for
    sanitized values without '_' outside the date, the values joined by
    '_' and followed by .html give the key of the six values. *)
Theorem X12_plain_html_gives_key (row : Combo) :
  sanitized row → delimiter_free row →
  let base :=
    state_val row ++ "_" :: district_val row ++ "_" :: block_val row ++ "_" ::
    panchayat_val row ++ "_" :: year_val row ++ "_" :: date_val row in
  _load_processed_set (Some [(base ++ "_" :: option_val row) ++ «".html"»])
  = {[ fields_of row ]}.
Proof.
  intros Hs (H1 & H2 & H3 & H4 & H5 & H7) base.
  apply load_one; [left; apply endswith_app|].
  rewrite stem_html by (destruct base; discriminate).
  unfold parse_stem. rewrite rsplit1_app by exact H7.
  unfold key_of_base, base. rewrite split6 by assumption.
  destruct Hs as (E1 & E2 & E3 & E4 & E5 & E6 & _).
  rewrite E1, E2, E3, E4, E5, E6. reflexivity.
Qed.

Lemma X12_plain_html_gives_key_witness :
  _load_processed_set
    (Some [«"Meghalaya_East-Khasi-Hills_Block1_GP1_2020-21_15-01-2021_All.html"»])
  = {[ key_meghalaya ]}.
Proof.
  apply (X12_plain_html_gives_key combo_meghalaya).
  - repeat split.
  - unfold delimiter_free, combo_meghalaya; cbn [state_val district_val block_val
      panchayat_val year_val option_val]. repeat split; absent.
Defined.

(** ** What the traversal selects *)

Section Quiet.
Context {World : Type} `{Driver World}.

Lemma get_options_quiet element exclude_default max_wait
    (h h' : Handler World) found :
  _get_options_dict element exclude_default max_wait h = (found, h') →
  ∃ t, quiet h h' t ∧ steps t = [].
Proof.
  unfold _get_options_dict. intros Hrun.
  apply bind_run in Hrun as (options & h1 & H1 & Hrun).
  apply call_run in H1 as [Q1 _].
  destruct (match options with
            | Some o => options_dict_of element exclude_default o
            | None => inr DriverError
            end) as [d|e].
  - apply ret_run in Hrun as [_ ->]. eexists. split; [exact Q1 | reflexivity].
  - apply bind_run in Hrun as (? & h2 & H2 & Hrun). apply log_run in H2.
    apply ret_run in Hrun as [_ ->]. eexists.
    split; [exact (quiet_trans _ _ _ _ _ Q1 H2) | reflexivity].
Qed.

End Quiet.

Lemma form_elements_inj c c' : form_elements c = form_elements c' → c = c'.
Proof. destruct c, c'; intros Heq; try reflexivity; vm_compute in Heq; discriminate. Qed.

Section Tracing.
Context {World : Type} `{Driver World}.
Variable P : list Step → Prop.
Variable ok : Control → str → Prop.
Hypothesis P_nil : P [].
Hypothesis P_app : ∀ a b, P a → P b → P (a ++ b).
Hypothesis P_refresh : P [Refreshing].
Hypothesis P_save : ∀ filepath, P [Saving filepath].
Hypothesis P_option : ∀ value, P [Selecting (form_elements Option) value].
Hypothesis P_select :
  ∀ control value, control ≠ Option → ok control value →
                   P [Selecting (form_elements control) value].
Hypothesis ok_offered :
  ∀ control value, control ≠ State → offered control value → ok control value.

Lemma tracing_refl (h : Handler World) : tracing P h h.
Proof. exists []. rewrite app_nil_r. auto. Qed.

Lemma tracing_trans (h h1 h2 : Handler World) :
  tracing P h h1 → tracing P h1 h2 → tracing P h h2.
Proof.
  intros (t1 & Ht1 & P1) (t2 & Ht2 & P2). exists (t1 ++ t2).
  rewrite Ht2, Ht1, app_assoc, steps_app. auto.
Qed.

Lemma tracing_quiet (h h' : Handler World) t :
  quiet h h' t → P (steps t) → tracing P h h'.
Proof. intros [Ht _] HP. exists t. auto. Qed.

Lemma log_tracing level format args (h h' : Handler World) u :
  log level format args h = (u, h') → tracing P h h'.
Proof.
  intros Hrun. apply log_run in Hrun. exact (tracing_quiet _ _ _ Hrun P_nil).
Qed.

Lemma select_option_tracing element_id value (h h' : Handler World) selected :
  P [Selecting element_id value] →
  _select_option element_id value default_max_retries h = (selected, h') →
  tracing P h h'.
Proof.
  intros HP Hrun. apply select_option_once in Hrun as (t & ? & Q & S & _).
  apply (tracing_quiet _ _ _ Q). rewrite S. exact HP.
Qed.

Lemma get_options_tracing element exclude_default max_wait
    (h h' : Handler World) found :
  _get_options_dict element exclude_default max_wait h = (found, h') →
  tracing P h h'.
Proof.
  intros Hrun. apply get_options_quiet in Hrun as (t & Q & S).
  apply (tracing_quiet _ _ _ Q). rewrite S. exact P_nil.
Qed.

Lemma for_items_tracing {A} (body : A → M World Flow) items
    (h h' : Handler World) flow :
  (∀ item h0 flow0 h1, item ∈ items → body item h0 = (flow0, h1) →
     tracing P h0 h1) →
  for_items body items h = (flow, h') → tracing P h h'.
Proof.
  revert h. induction items as [|item items IH]; intros h Hbody Hrun.
  - apply ret_run in Hrun as [_ ->]. apply tracing_refl.
  - cbn [for_items] in Hrun.
    apply bind_run in Hrun as (flow0 & h1 & H1 & Hrun).
    apply Hbody in H1; [|apply list_elem_of_here].
    destruct flow0.
    + apply (tracing_trans _ _ _ H1). apply IH; [|exact Hrun].
      intros item' h0 flow1 h2 Hin. apply Hbody, list_elem_of_further, Hin.
    + apply ret_run in Hrun as [_ ->]. exact H1.
    + apply ret_run in Hrun as [_ ->]. exact H1.
Qed.

Lemma level_tracing control next value skip_format error_format inner
    (h h' : Handler World) flow :
  control ≠ Option → next ≠ State → ok control value →
  (∀ item h0 flow0 h1, ok next item.1 → inner item h0 = (flow0, h1) →
     tracing P h0 h1) →
  level control next value skip_format error_format inner h = (flow, h') →
  tracing P h h'.
Proof.
  intros Hc Hn Hok Hinner. unfold level. intros Hrun.
  apply bind_run in Hrun as (selected & h1 & H1 & Hrun).
  apply select_option_tracing in H1; [|apply P_select; assumption].
  apply (tracing_trans _ _ _ H1). destruct selected; simpl in Hrun.
  - apply bind_run in Hrun as (found & h2 & H2 & Hrun).
    pose proof (get_options_tracing _ _ _ _ _ _ H2) as T2.
    apply get_options_growing in H2 as [_ Hoffered].
    apply (tracing_trans _ _ _ T2). destruct found as [items|e].
    + apply for_items_tracing in Hrun; [exact Hrun|].
      intros item h0 flow0 h3 Hin. apply Hinner, ok_offered; [exact Hn|].
      exact (Hoffered items eq_refl eq_refl item Hin).
    + apply bind_run in Hrun as (? & h3 & H3 & Hrun).
      apply log_tracing in H3. apply ret_run in Hrun as [_ ->]. exact H3.
  - apply bind_run in Hrun as (? & h2 & H2 & Hrun).
    apply log_tracing in H2. apply ret_run in Hrun as [_ ->]. exact H2.
Qed.

Lemma ancestors_ok row :
  ok State (state_val row) → ok District (district_val row) →
  ok Block (block_val row) → ok Panchayat (panchayat_val row) →
  ok Year (year_val row) → ok Date (date_val row) →
  P (ancestors row).
Proof.
  intros. unfold ancestors.
  repeat (apply (P_app [_]); [apply P_select; [discriminate | assumption]|]).
  exact P_nil.
Qed.

Lemma visit_combination_tracing state district block panchayat year date
    option_dict (h h' : Handler World) flow :
  ok State state.1 → ok District district.1 → ok Block block.1 →
  ok Panchayat panchayat.1 → ok Year year.1 → ok Date date.1 →
  visit_combination state district block panchayat year date option_dict h
  = (flow, h') →
  tracing P h h'.
Proof.
  intros Os Od Ob Op Oy Ot Hrun. apply visit_combination_run in Hrun.
  destruct (choose_option option_dict) as [[value label]|].
  - cbv zeta in Hrun. destruct (decide _) as [Hin|Hnot].
    + destruct Hrun as [_ Q]. exact (tracing_quiet _ _ _ Q P_nil).
    + destruct Hrun as (t & outcome & Ht & _ & _ & Hflow). exists t.
      split; [exact Ht|]. destruct flow.
      * destruct Hflow as (_ & -> & _).
        apply (P_app [_]); [apply P_option|].
        apply (P_app [_]); [apply P_refresh|].
        apply ancestors_ok; assumption.
      * destruct Hflow as (_ & -> & _).
        apply (P_app [_]); [apply P_option | apply P_save].
      * destruct Hflow as (_ & -> & _).
        apply (P_app [_]); [apply P_option | apply P_refresh].
  - destruct Hrun as [_ Q]. exact (tracing_quiet _ _ _ Q P_nil).
Qed.

Lemma visit_date_tracing state district block panchayat year date
    (h h' : Handler World) flow :
  ok State state.1 → ok District district.1 → ok Block block.1 →
  ok Panchayat panchayat.1 → ok Year year.1 → ok Date date.1 →
  visit_date state district block panchayat year date h = (flow, h') →
  tracing P h h'.
Proof.
  intros Os Od Ob Op Oy Ot. unfold visit_date. intros Hrun.
  apply bind_run in Hrun as (selected & h1 & H1 & Hrun).
  apply select_option_tracing in H1;
    [|apply P_select; [discriminate | assumption]].
  apply (tracing_trans _ _ _ H1). destruct selected; cbn [negb] in Hrun.
  - apply bind_run in Hrun as (found & h2 & H2 & Hrun).
    apply get_options_tracing in H2.
    apply (tracing_trans _ _ _ H2). destruct found as [option_dict|e].
    + exact (visit_combination_tracing _ _ _ _ _ _ _ _ _ _
               Os Od Ob Op Oy Ot Hrun).
    + apply bind_run in Hrun as (? & h3 & H3 & Hrun).
      apply log_tracing in H3. apply ret_run in Hrun as [_ ->]. exact H3.
  - apply bind_run in Hrun as (? & h2 & H2 & Hrun).
    apply log_tracing in H2. apply ret_run in Hrun as [_ ->]. exact H2.
Qed.

Lemma visit_year_tracing state district block panchayat year
    (h h' : Handler World) flow :
  ok State state.1 → ok District district.1 → ok Block block.1 →
  ok Panchayat panchayat.1 → ok Year year.1 →
  visit_year state district block panchayat year h = (flow, h') →
  tracing P h h'.
Proof.
  intros Os Od Ob Op Oy. apply level_tracing; [discriminate.. | exact Oy|].
  intros date h0 flow0 h1 Ot. apply visit_date_tracing; assumption.
Qed.

Lemma visit_panchayat_tracing state district block panchayat
    (h h' : Handler World) flow :
  ok State state.1 → ok District district.1 → ok Block block.1 →
  ok Panchayat panchayat.1 →
  visit_panchayat state district block panchayat h = (flow, h') →
  tracing P h h'.
Proof.
  intros Os Od Ob Op. apply level_tracing; [discriminate.. | exact Op|].
  intros year h0 flow0 h1 Oy. apply visit_year_tracing; assumption.
Qed.

Lemma visit_block_tracing state district block (h h' : Handler World) flow :
  ok State state.1 → ok District district.1 → ok Block block.1 →
  visit_block state district block h = (flow, h') → tracing P h h'.
Proof.
  intros Os Od Ob. apply level_tracing; [discriminate.. | exact Ob|].
  intros panchayat h0 flow0 h1 Op. apply visit_panchayat_tracing; assumption.
Qed.

Lemma visit_district_tracing state district (h h' : Handler World) flow :
  ok State state.1 → ok District district.1 →
  visit_district state district h = (flow, h') → tracing P h h'.
Proof.
  intros Os Od. apply level_tracing; [discriminate.. | exact Od|].
  intros block h0 flow0 h1 Ob. apply visit_block_tracing; assumption.
Qed.

Lemma visit_state_tracing state (h h' : Handler World) flow :
  ok State state.1 →
  visit_state state h = (flow, h') → tracing P h h'.
Proof.
  intros Os. unfold visit_state. destruct (negb (contains _ _)).
  - intros Hrun. apply ret_run in Hrun as [_ ->]. apply tracing_refl.
  - apply level_tracing; [discriminate.. | exact Os|].
    intros district h0 flow0 h1 Od. apply visit_district_tracing; assumption.
Qed.

End Tracing.

Lemma Selecting_inj e v e' v' :
  Selecting e v = Selecting e' v' → e = e' ∧ v = v'.
Proof. intros [= -> ->]. auto. Qed.

Section Selected.
Context {World : Type} `{Driver World}.

Lemma only_state_run state0 state (h h' : Handler World) flow :
  state.1 = state0 →
  visit_state state h = (flow, h') → tracing (only_state state0) h h'.
Proof.
  intros Hs.
  apply (visit_state_tracing (only_state state0)
           (λ control value, control = State → value = state0)).
  - constructor.
  - intros a b. apply Forall_app_2.
  - repeat constructor. discriminate.
  - repeat constructor. discriminate.
  - repeat constructor. intros v [=].
  - intros control value _ Hok. repeat constructor.
    intros v Heq. apply Selecting_inj in Heq as [Hc <-].
    apply form_elements_inj in Hc. auto.
  - intros control value Hne _ Hc. contradiction.
  - intros _. exact Hs.
Qed.

(** X13: the only values ever selected in the state dropdown are those of
    states whose label contains "meghalaya", whatever the case of its
    letters; this holds for the selections after a refresh too. *)
Theorem X13_only_target_states_are_selected (h : Handler World) :
  let read :=
    _get_options_dict (form_elements State) true default_max_wait h in
  let run := iterate_form h in
  ∃ t, trace run.2 = trace h ++ t
       ∧ match read.1 with
         | inl states => only_target states (steps t)
         | inr _ => steps t = []
         end.
Proof.
  intros read run. subst read run. unfold iterate_form, bind.
  destruct (_get_options_dict (form_elements State) true default_max_wait h)
    as [found h1] eqn:Hread.
  apply get_options_quiet in Hread as (t1 & [Ht1 _] & S1). simpl.
  destruct found as [states|e].
  - destruct (for_items visit_state states h1) as [flow h2] eqn:Hrun. simpl.
    apply (for_items_tracing (only_target states)) in Hrun.
    + destruct Hrun as (t2 & Ht2 & P2). exists (t1 ++ t2).
      rewrite Ht2, Ht1, app_assoc, steps_app, S1. auto.
    + constructor.
    + intros a b. apply Forall_app_2.
    + intros state h0 flow0 h3 Hin Hbody.
      destruct (contains «"meghalaya"» (PyStr.lower state.2)) eqn:Eon.
      * apply (only_state_run state.1) in Hbody as (t & Ht & Ps);
          [|reflexivity].
        exists t. split; [exact Ht|].
        apply (Forall_impl _ _ _ Ps). intros step Hstep value Heq.
        rewrite (Hstep value Heq). exists state.2.
        rewrite <- surjective_pairing. split; [exact Hin|].
        unfold off_target. rewrite Eon. discriminate.
      * unfold visit_state in Hbody. rewrite Eon in Hbody.
        apply ret_run in Hbody as [_ ->]. exists [].
        rewrite app_nil_r. split; [reflexivity | constructor].
  - unfold log, ret. simpl. eexists (t1 ++ [_]).
    rewrite Ht1, <- app_assoc, steps_app, S1. auto.
Qed.

(** X14: in the six dropdowns of the key the traversal only selects values
    that the dropdown offers, so never a placeholder: not the empty value,
    not "select" or "choose" in any case, not "0". *)
Theorem X14_no_placeholder_is_selected (h : Handler World) :
  let run := iterate_form h in
  ∃ t, trace run.2 = trace h ++ t
       ∧ only_offered (steps t)
       ∧ ∀ control value,
           control ≠ Option →
           Selecting (form_elements control) value ∈ steps t →
           value ≠ [] ∧ PyStr.lower value ≠ «"select"»
           ∧ PyStr.lower value ≠ «"choose"» ∧ value ≠ «"0"»
           ∧ PyStr.strip value = value.
Proof.
  intros run.
  assert (Hrun : tracing only_offered h run.2).
  { subst run. unfold iterate_form, bind.
    destruct (_get_options_dict (form_elements State) true default_max_wait h)
      as [found h1] eqn:Hread.
    pose proof (get_options_quiet _ _ _ _ _ _ Hread) as (t1 & [Ht1 _] & S1).
    apply get_options_growing in Hread as [_ Hoffered].
    assert (T1 : tracing only_offered h h1).
    { exists t1. rewrite S1. split; [exact Ht1 | constructor]. }
    destruct found as [states|e].
    - destruct (for_items visit_state states h1) as [flow h2] eqn:Hrun.
      simpl. apply (tracing_trans _ (λ a b, Forall_app_2 _ a b) _ _ _ T1).
      apply (for_items_tracing only_offered) in Hrun;
        [exact Hrun | constructor | intros a b; apply Forall_app_2|].
      intros state h0 flow0 h3 Hin.
      apply (visit_state_tracing only_offered offered).
      + constructor.
      + intros a b. apply Forall_app_2.
      + repeat constructor. discriminate.
      + repeat constructor. discriminate.
      + repeat constructor. intros control v Hne Heq.
        apply Selecting_inj in Heq as [Hc _].
        apply form_elements_inj in Hc. congruence.
      + intros control value _ Hok. repeat constructor.
        intros c v _ Heq. apply Selecting_inj in Heq as [Hc <-].
        apply form_elements_inj in Hc as <-. exact Hok.
      + auto.
      + exact (Hoffered states eq_refl eq_refl state Hin).
    - unfold log, ret. simpl.
      apply (tracing_trans _ (λ a b, Forall_app_2 _ a b) _ _ _ T1).
      eexists [_]. split; [reflexivity | constructor]. }
  destruct Hrun as (t & Ht & Pt). exists t. split_and!; [exact Ht | exact Pt|].
  intros control value Hne Hin. unfold only_offered in Pt.
  rewrite Forall_forall in Pt.
  destruct (Pt _ Hin control value Hne eq_refl)
    as (w & mw & options & o & _ & _ & Hkept & <-).
  unfold kept in Hkept.
  assert (Hnot : ¬ (is_default (PyStr.strip (value_attr o)) = true))
    by (rewrite Hkept; discriminate).
  rewrite is_default_iff in Hnot. split_and!; try tauto. apply strip_idem.
Qed.

(** ** Rows of one year *)

Lemma visit_date_adds state district block panchayat year date
    (h h' : Handler World) flow :
  visit_date state district block panchayat year date h = (flow, h') →
  (flow ≠ Stop ∧ results h' = results h)
  ∨ (flow = Stop
     ∧ ∃ r, results h' = results h ++ [r]
            ∧ (state_val (row_vals r), district_val (row_vals r),
               block_val (row_vals r), panchayat_val (row_vals r),
               year_val (row_vals r), date_val (row_vals r))
              = (state.1, district.1, block.1, panchayat.1, year.1, date.1)).
Proof.
  unfold visit_date. intros Hrun.
  apply bind_run in Hrun as (selected & h1 & H1 & Hrun).
  apply select_option_once in H1 as (t1 & ? & (_ & R1 & _) & _).
  destruct selected; cbn [negb] in Hrun.
  - apply bind_run in Hrun as (found & h2 & H2 & Hrun).
    apply get_options_quiet in H2 as (t2 & (_ & R2 & _) & _).
    destruct found as [option_dict|e].
    + apply visit_combination_run in Hrun.
      destruct (choose_option option_dict) as [[value label]|].
      * cbv zeta in Hrun. destruct (decide _).
        -- destruct Hrun as [-> (_ & R3 & _)]. left.
           split; [discriminate | congruence].
        -- destruct Hrun as (t & outcome & _ & _ & _ & Hflow). destruct flow.
           ++ destruct Hflow as (_ & _ & (_ & R3 & _) & _). left.
              split; [discriminate | congruence].
           ++ destruct Hflow as (_ & _ & r & Hvals & _ & R3 & _). right.
              split; [reflexivity|]. exists r. rewrite Hvals. simpl.
              split; [congruence | reflexivity].
           ++ destruct Hflow as (_ & _ & (_ & R3 & _)). left.
              split; [discriminate | congruence].
      * destruct Hrun as [-> (_ & R3 & _)]. left.
        split; [discriminate | congruence].
    + apply bind_run in Hrun as (? & h3 & H3 & Hrun).
      apply log_run in H3 as (_ & R3 & _). apply ret_run in Hrun as [-> ->].
      left. split; [discriminate | congruence].
  - apply bind_run in Hrun as (? & h2 & H2 & Hrun).
    apply log_run in H2 as (_ & R2 & _). apply ret_run in Hrun as [-> ->].
    left. split; [discriminate | congruence].
Qed.

(** X15: one visit of a year records at most one row: the loop over its
    dates is left after the first date that is saved, and the dates before
    it recorded nothing. *)
Theorem X15_one_row_per_year state district block panchayat year
    (h : Handler World) :
  let run := visit_year state district block panchayat year h in
  results run.2 = results h
  ∨ ∃ r, results run.2 = results h ++ [r]
         ∧ (state_val (row_vals r), district_val (row_vals r),
            block_val (row_vals r), panchayat_val (row_vals r),
            year_val (row_vals r))
           = (state.1, district.1, block.1, panchayat.1, year.1).
Proof.
  intros run. destruct run as [flow h'] eqn:Hrun. subst run. simpl.
  unfold visit_year in Hrun.
  apply bind_run in Hrun as (selected & h1 & H1 & Hrun).
  apply select_option_once in H1 as (t1 & ? & (_ & R1 & _) & _).
  destruct selected; cbn [negb] in Hrun.
  - apply bind_run in Hrun as (found & h2 & H2 & Hrun).
    apply get_options_quiet in H2 as (t2 & (_ & R2 & _) & _).
    rewrite <- R1, <- R2. clear R1 R2. destruct found as [dates|e].
    + revert h2 Hrun. induction dates as [|date dates IH]; intros h2 Hrun.
      * apply ret_run in Hrun as [_ ->]. auto.
      * cbn [for_items] in Hrun.
        apply bind_run in Hrun as (flow0 & h3 & H3 & Hrun).
        apply visit_date_adds in H3 as [[Hne R3]|[-> (r & R3 & Hvals)]].
        -- rewrite <- R3. destruct flow0; [| contradiction |].
           ++ exact (IH _ Hrun).
           ++ apply ret_run in Hrun as [_ ->]. auto.
        -- apply ret_run in Hrun as [_ ->]. right. exists r.
           split; [exact R3|]. congruence.
    + apply bind_run in Hrun as (? & h3 & H3 & Hrun).
      apply log_run in H3 as (_ & R3 & _). apply ret_run in Hrun as [_ ->].
      auto.
  - apply bind_run in Hrun as (? & h2 & H2 & Hrun).
    apply log_run in H2 as (_ & R2 & _). apply ret_run in Hrun as [_ ->].
    left. congruence.
Qed.

End Selected.

(** ** Exceptions *)

Section Exceptions.
Context {World : Type} `{Driver World}.

Lemma halting_after (h h1 h2 : Handler World) t flow :
  trace h1 = trace h ++ t → halting h1 h2 flow → halting h h2 flow.
Proof.
  intros Ht (t' & Ht' & Hlast). exists (t ++ t').
  rewrite Ht', Ht, app_assoc. split; [reflexivity|].
  intros Hflow. specialize (Hlast Hflow).
  destruct t' as [|e t'] using rev_ind; [discriminate|].
  rewrite app_assoc, last_snoc. rewrite last_snoc in Hlast. exact Hlast.
Qed.

Lemma halting_calm (h h' : Handler World) t flow :
  quiet h h' t → flow ≠ Raised → halting h h' flow.
Proof. intros [Ht _] Hne. exists t. split; [exact Ht | contradiction]. Qed.

Lemma select_final_option_halts row (h h' : Handler World) success :
  select_final_option (Z.to_nat max_attempts) 0 row h = (success, h') →
  ∃ t, trace h' = trace h ++ t
       ∧ (success = None →
          last t = Some (Refresh false)
          ∧ ∃ w, (refresh w).1 = false).
Proof.
  change (Z.to_nat max_attempts) with 1%nat. cbn [select_final_option].
  intros Hrun. apply bind_run in Hrun as (selected & h1 & H1 & Hrun).
  apply select_option_once in H1 as (t1 & outcome & [Ht1 _] & _).
  destruct selected.
  - apply ret_run in Hrun as [-> ->]. exists t1. split; [exact Ht1 | discriminate].
  - apply bind_run in Hrun as (? & h2 & H2 & Hrun).
    apply log_run in H2 as [Ht2 _].
    apply bind_run in Hrun as (refreshed & h3 & H3 & Hrun).
    apply call_run in H3 as [[Ht3 _] Hr]. destruct refreshed.
    + apply bind_run in Hrun as (? & h4 & H4 & Hrun).
      apply reselect_run in H4 as (t4 & [Ht4 _] & _).
      apply ret_run in Hrun as [-> ->].
      rewrite Ht3, Ht2, Ht1, <- !app_assoc in Ht4.
      eexists. split; [exact Ht4 | discriminate].
    + apply ret_run in Hrun as [-> ->].
      rewrite Ht2, Ht1, <- !app_assoc in Ht3.
      eexists. split; [exact Ht3|].
      intros _. split; [rewrite !app_assoc; apply last_snoc|].
      exists (driver h2). symmetry. exact Hr.
Qed.

Lemma visit_combination_halts state district block panchayat year date
    option_dict (h h' : Handler World) flow :
  visit_combination state district block panchayat year date option_dict h
  = (flow, h') →
  halting h h' flow ∧ (flow = Raised → ∃ w, (refresh w).1 = false).
Proof.
  unfold visit_combination.
  destruct (choose_option option_dict) as [[value label]|]; intros Hrun.
  - apply bind_run in Hrun as (processed & h0 & H0 & Hrun).
    apply get_run in H0 as [-> ->]. cbv zeta in Hrun.
    destruct (decide _).
    + apply bind_run in Hrun as (? & h1 & H1 & Hrun). apply log_run in H1.
      apply ret_run in Hrun as [-> ->].
      split; [apply (halting_calm _ _ _ _ H1) |]; discriminate.
    + apply bind_run in Hrun as (success & h1 & H1 & Hrun).
      apply select_final_option_halts in H1 as (t1 & Ht1 & Hnone).
      destruct success as [[]|].
      * apply bind_run in Hrun as (file & h2 & H2 & Hrun).
        apply save_webpage_run in H2 as (t2 & [Ht2 _] & _).
        unfold bind, read_clock, append_result, count_processed,
          add_processed, get, log, ret in Hrun.
        destruct (now (driver h2)) as [time w]. injection Hrun as <- <-.
        split; [|discriminate]. eexists ((t1 ++ t2) ++ [_]).
        split; [|discriminate]. cbn [trace].
        rewrite Ht2, Ht1, !app_assoc. reflexivity.
      * apply bind_run in Hrun as (? & h2 & H2 & Hrun).
        apply log_run in H2 as [Ht2 _]. apply ret_run in Hrun as [-> ->].
        split; [|discriminate]. rewrite Ht1, <- !app_assoc in Ht2.
        eexists. split; [exact Ht2 | discriminate].
      * apply ret_run in Hrun as [-> ->]. destruct (Hnone eq_refl) as [Hl Hw].
        split; [|auto]. exists t1. auto.
  - apply bind_run in Hrun as (? & h1 & H1 & Hrun). apply log_run in H1.
    apply ret_run in Hrun as [-> ->].
    split; [apply (halting_calm _ _ _ _ H1) |]; discriminate.
Qed.

End Exceptions.

Section Returns.
Context {World : Type} `{Driver World}.

Lemma for_items_halts {A} (body : A → M World Flow) items
    (h h' : Handler World) flow :
  (∀ item h0 flow0 h1, body item h0 = (flow0, h1) →
     halting h0 h1 flow0 ∧ (flow0 = Raised → ∃ w, (refresh w).1 = false)) →
  for_items body items h = (flow, h') →
  flow ≠ Stop ∧ halting h h' flow
  ∧ (flow = Raised → ∃ w, (refresh w).1 = false).
Proof.
  intros Hbody. revert h. induction items as [|item items IH]; intros h Hrun.
  - apply ret_run in Hrun as [-> ->]. split_and!; try discriminate.
    exists []. rewrite app_nil_r. split; [reflexivity | discriminate].
  - cbn [for_items] in Hrun.
    apply bind_run in Hrun as (flow0 & h1 & H1 & Hrun).
    apply Hbody in H1 as [(t1 & Ht1 & Hlast) Hw]. destruct flow0.
    + apply IH in Hrun as (Hne & Hhalt & Hw'). split_and!; auto.
      exact (halting_after _ _ _ _ _ Ht1 Hhalt).
    + apply ret_run in Hrun as [-> ->]. split_and!; try discriminate.
      exists t1. split; [exact Ht1 | discriminate].
    + apply ret_run in Hrun as [-> ->]. split_and!; [discriminate | | auto].
      exists t1. auto.
Qed.

Lemma level_halts control next value skip_format error_format inner
    (h h' : Handler World) flow :
  (∀ item h0 flow0 h1, inner item h0 = (flow0, h1) →
     halting h0 h1 flow0 ∧ (flow0 = Raised → ∃ w, (refresh w).1 = false)) →
  level control next value skip_format error_format inner h = (flow, h') →
  halting h h' flow ∧ (flow = Raised → ∃ w, (refresh w).1 = false).
Proof.
  intros Hinner. unfold level. intros Hrun.
  apply bind_run in Hrun as (selected & h1 & H1 & Hrun).
  apply select_option_once in H1 as (t1 & ? & [Ht1 _] & _).
  destruct selected; simpl in Hrun.
  - apply bind_run in Hrun as (found & h2 & H2 & Hrun).
    apply get_options_quiet in H2 as (t2 & [Ht2 _] & _).
    destruct found as [items|e].
    + apply (for_items_halts _ _ _ _ _ Hinner) in Hrun as (_ & Hhalt & Hw).
      split; [|exact Hw].
      exact (halting_after _ _ _ _ _ Ht1 (halting_after _ _ _ _ _ Ht2 Hhalt)).
    + apply bind_run in Hrun as (? & h3 & H3 & Hrun).
      apply log_run in H3. apply ret_run in Hrun as [-> ->].
      split; [|discriminate].
      apply (halting_after _ _ _ _ _ Ht1), (halting_after _ _ _ _ _ Ht2).
      apply (halting_calm _ _ _ _ H3). discriminate.
  - apply bind_run in Hrun as (? & h2 & H2 & Hrun).
    apply log_run in H2. apply ret_run in Hrun as [-> ->].
    split; [|discriminate]. apply (halting_after _ _ _ _ _ Ht1).
    apply (halting_calm _ _ _ _ H2). discriminate.
Qed.

Lemma visit_date_halts state district block panchayat year date
    (h h' : Handler World) flow :
  visit_date state district block panchayat year date h = (flow, h') →
  halting h h' flow ∧ (flow = Raised → ∃ w, (refresh w).1 = false).
Proof.
  unfold visit_date. intros Hrun.
  apply bind_run in Hrun as (selected & h1 & H1 & Hrun).
  apply select_option_once in H1 as (t1 & ? & [Ht1 _] & _).
  destruct selected; cbn [negb] in Hrun.
  - apply bind_run in Hrun as (found & h2 & H2 & Hrun).
    apply get_options_quiet in H2 as (t2 & [Ht2 _] & _).
    destruct found as [option_dict|e].
    + apply visit_combination_halts in Hrun as [Hhalt Hw]. split; [|exact Hw].
      exact (halting_after _ _ _ _ _ Ht1 (halting_after _ _ _ _ _ Ht2 Hhalt)).
    + apply bind_run in Hrun as (? & h3 & H3 & Hrun).
      apply log_run in H3. apply ret_run in Hrun as [-> ->].
      split; [|discriminate].
      apply (halting_after _ _ _ _ _ Ht1), (halting_after _ _ _ _ _ Ht2).
      apply (halting_calm _ _ _ _ H3). discriminate.
  - apply bind_run in Hrun as (? & h2 & H2 & Hrun).
    apply log_run in H2. apply ret_run in Hrun as [-> ->].
    split; [|discriminate]. apply (halting_after _ _ _ _ _ Ht1).
    apply (halting_calm _ _ _ _ H2). discriminate.
Qed.

Lemma visit_state_halts state (h h' : Handler World) flow :
  visit_state state h = (flow, h') →
  halting h h' flow ∧ (flow = Raised → ∃ w, (refresh w).1 = false).
Proof.
  unfold visit_state. destruct (negb (contains _ _)).
  - intros Hrun. apply ret_run in Hrun as [-> ->]. split; [|discriminate].
    exists []. rewrite app_nil_r. split; [reflexivity | discriminate].
  - apply level_halts. intros district h0 flow0 h1.
    apply level_halts. intros block h2 flow2 h3.
    apply level_halts. intros panchayat h4 flow4 h5.
    apply level_halts. intros year h6 flow6 h7.
    apply level_halts. intros date h8 flow8 h9.
    apply visit_date_halts.
Qed.

(** X16: iterate_form never ends in a break; the only exception that leaves
    it is one raised by driver.refresh(), and then that refresh is the last
    thing it did; so on a browser whose refresh never raises iterate_form
    returns. *)
Theorem X16_only_refresh_raises (h : Handler World) :
  let run := iterate_form h in
  run.1 ≠ Stop
  ∧ (run.1 = Raised →
     ∃ t, trace run.2 = trace h ++ t ∧ last t = Some (Refresh false))
  ∧ ((∀ w, (refresh w).1 = true) → run.1 = Next).
Proof.
  intros run.
  assert (Hrun : run.1 ≠ Stop ∧ halting h run.2 run.1
                 ∧ (run.1 = Raised → ∃ w, (refresh w).1 = false)).
  { destruct run as [flow h'] eqn:Hrun. subst run. simpl.
    unfold iterate_form in Hrun.
    apply bind_run in Hrun as (found & h1 & H1 & Hrun).
    apply get_options_quiet in H1 as (t1 & [Ht1 _] & _).
    destruct found as [states|e].
    - apply for_items_halts in Hrun as (Hne & Hhalt & Hw);
        [|intros state h0 flow0 h2; apply visit_state_halts].
      split_and!; auto. exact (halting_after _ _ _ _ _ Ht1 Hhalt).
    - apply bind_run in Hrun as (? & h2 & H2 & Hrun).
      apply log_run in H2. apply ret_run in Hrun as [-> ->].
      split_and!; try discriminate. apply (halting_after _ _ _ _ _ Ht1).
      apply (halting_calm _ _ _ _ H2). discriminate. }
  destruct Hrun as (Hne & (t & Ht & Hlast) & Hw). split_and!.
  - exact Hne.
  - intros Hr. exists t. auto.
  - intros Hok. destruct run.1 eqn:E; [reflexivity | contradiction|].
    destruct (Hw eq_refl) as [w Hfalse]. rewrite Hok in Hfalse. discriminate.
Qed.

End Returns.

(** ** White space around a value *)

Lemma lstrip_spaces spaces s :
  Forall (λ c, PyStr.isspace c = true) spaces →
  PyStr.lstrip (spaces ++ s) = PyStr.lstrip s.
Proof.
  induction 1 as [|c spaces Hc _ IH]; simpl; [reflexivity|].
  rewrite Hc. exact IH.
Qed.

Lemma rstrip_spaces s spaces :
  Forall (λ c, PyStr.isspace c = true) spaces →
  PyStr.rstrip (s ++ spaces) = PyStr.rstrip s.
Proof.
  intros Hs. unfold PyStr.rstrip. rewrite rev_app_distr, lstrip_spaces;
    [reflexivity|]. apply Forall_rev, Hs.
Qed.

Lemma strip_app_spaces s spaces :
  Forall (λ c, PyStr.isspace c = true) spaces →
  PyStr.rstrip (PyStr.lstrip (s ++ spaces)) = PyStr.rstrip (PyStr.lstrip s).
Proof.
  intros Hs. induction s as [|c s IH]; simpl.
  - rewrite <- (app_nil_r spaces) at 1. rewrite lstrip_spaces by exact Hs.
    reflexivity.
  - destruct (PyStr.isspace c); [exact IH|].
    rewrite app_comm_cons. apply rstrip_spaces, Hs.
Qed.

(** X17: white space around a value does not change its cleaned form, so a
    key does not depend on white space at the ends of the six values; and
    the cleaned form has no white space in it. *)
Theorem X17_clean_value_ignores_outer_space (before s after : str) :
  Forall (λ c, PyStr.isspace c = true) before →
  Forall (λ c, PyStr.isspace c = true) after →
  clean_value (before ++ s ++ after) = clean_value s
  ∧ clean_value (PyStr.strip s) = clean_value s
  ∧ Forall (λ c, PyStr.isspace c = false) (clean_value s).
Proof.
  intros Hb Ha. split_and!.
  - unfold clean_value, PyStr.strip.
    rewrite lstrip_spaces, strip_app_spaces by assumption. reflexivity.
  - unfold clean_value. rewrite strip_idem. reflexivity.
  - apply (Forall_impl _ _ _ (clean_value_clean s)).
    intros c. apply keep_char_not_space.
Qed.

Lemma X17_clean_value_ignores_outer_space_witness :
  clean_value «"  East Khasi Hills  "» = clean_value «"East Khasi Hills"».
Proof.
  apply (X17_clean_value_ignores_outer_space «"  "» «"East Khasi Hills"» «"  "»);
    repeat constructor.
Defined.
